(** * Variable FK: the naming service, the control placement, the joint
    position sampling, the falloff network, the offset groups and the
    orientation of the controls of [variable_FK.py].

    Strings are [String.string].  Attribute values, which the host stores as
    doubles, are exact rationals [Q] here, compared with [==]; rounding is
    outside this development. *)

From Stdlib Require Import ZArith QArith Qabs Lia Lqa List Bool Ascii String.
From Stdlib Require DecimalString DecimalZ.
Import ListNotations.

Open Scope string_scope.

(* ================================================================== *)
(** * Python string primitives *)
(* ================================================================== *)

Module PyStr.

(** [drop n s] is the slice [s[n:]]. *)
Fixpoint drop (n : nat) (s : string) : string :=
  match n, s with
  | O, _ => s
  | S _, EmptyString => EmptyString
  | S k, String _ t => drop k t
  end.

(** [starts_with p s] is [s.startswith(p)]. *)
Fixpoint starts_with (p s : string) : bool :=
  match p, s with
  | EmptyString, _ => true
  | String _ _, EmptyString => false
  | String a p', String b s' => if Ascii.eqb a b then starts_with p' s' else false
  end.

(** [contains sub s] is the membership test [sub in s]. *)
Fixpoint contains (sub s : string) : bool :=
  match s with
  | EmptyString => starts_with sub EmptyString
  | String _ t => starts_with sub s || contains sub t
  end.

(** Left-to-right scan of [str.replace] for a non-empty [old]; [skip] counts
    the characters of a match that are still to be passed over. *)
Fixpoint replace_scan (old new : string) (skip : nat) (s : string) : string :=
  match s with
  | EmptyString => EmptyString
  | String c t =>
      match skip with
      | S k => replace_scan old new k t
      | O =>
          if starts_with old s
          then new ++ replace_scan old new (String.length old - 1) t
          else String c (replace_scan old new 0 t)
      end
  end.

(** With an empty [old], Python puts [new] before every character and at
    the end. *)
Fixpoint interleave (new s : string) : string :=
  match s with
  | EmptyString => new
  | String c t => new ++ String c (interleave new t)
  end.

(** [replace old new s] is [s.replace(old, new)]: every non-overlapping
    occurrence of [old], found from the left, is replaced by [new]. *)
Definition replace (old new s : string) : string :=
  match old with
  | EmptyString => interleave new s
  | String _ _ => replace_scan old new 0 s
  end.

End PyStr.

(* ================================================================== *)
(** * Naming service *)
(* ================================================================== *)

(** The three module-level naming variables. *)
Record NamingConfig := {
  system_name : string;
  side : string;
  suffix : bool
}.

(** The values the module assigns: [system_name = "trunk_var_fk"],
    [side = "__"], [suffix = True]. *)
Definition module_config : NamingConfig :=
  {| system_name := "trunk_var_fk"; side := "__"; suffix := true |}.

(** The f-string chosen by the two flags, before the final [replace]. *)
Definition composed_name (cfg : NamingConfig)
    (name node_name : string) (include_system_name : bool) : string :=
  if suffix cfg then
    if include_system_name
    then name ++ "_" ++ system_name cfg ++ "_" ++ node_name ++ "_" ++ side cfg
    else name ++ "_" ++ node_name ++ "_" ++ side cfg
  else
    if include_system_name
    then side cfg ++ "_" ++ name ++ "_" ++ system_name cfg ++ "_" ++ node_name
    else side cfg ++ "_" ++ name ++ "_" ++ node_name.

(** [name_object(name, node_name, include_system_name)]; the Python defaults
    are [name = "__"], [node_name = "__"], [include_system_name = True]. *)
Definition name_object (cfg : NamingConfig)
    (name node_name : string) (include_system_name : bool) : string :=
  PyStr.replace "___" "" (composed_name cfg name node_name include_system_name).

(** [starter_node_name] of the falloff loop: the offset group's name is the
    base name and the system name is left out. *)
Definition starter_node_name (cfg : NamingConfig)
    (joint_offset_group node_name : string) : string :=
  name_object cfg joint_offset_group node_name false.

(** The test [falloff_position in falloff_rear_position] that picks the side
    and the channel inside the falloff loop, on the name of a bound node. *)
Definition is_rear_side (cfg : NamingConfig)
    (joint_offset_group falloff_position : string) : bool :=
  PyStr.contains falloff_position
    (starter_node_name cfg joint_offset_group "ctrlpos_minus_falloff_pma").

(* ================================================================== *)
(** * Host nodes *)
(* ================================================================== *)

Open Scope Q_scope.

(** A three-channel attribute ([rotate], [input1], [output], [outColor]). *)
Record double3 := D3 { chX : Q; chY : Q; chZ : Q }.

Definition d3_eq (a b : double3) : Prop :=
  chX a == chX b /\ chY a == chY b /\ chZ a == chZ b.

Definition d3_zero : double3 := D3 0 0 0.
Definition d3_fill (v : Q) : double3 := D3 v v v.
Definition d3_map2 (f : Q -> Q -> Q) (a b : double3) : double3 :=
  D3 (f (chX a) (chX b)) (f (chY a) (chY b)) (f (chZ a) (chZ b)).

Definition Qclamp (lo hi v : Q) : Q :=
  if Qle_bool v lo then lo else if Qle_bool hi v then hi else v.

(** [plusMinusAverage]: [operation] 1 sums [input1D], 2 subtracts the later
    entries from the first, 3 averages, 0 passes the first entry through.
    A new node has [operation = 1]. *)
Record plusMinusAverage := {
  pma_operation : Z;
  pma_input1D : list Q
}.

Definition Qsum (l : list Q) : Q := fold_right Qplus 0 l.

Definition pma_output1D (n : plusMinusAverage) : Q :=
  match pma_operation n, pma_input1D n with
  | _, [] => 0
  | 1%Z, l => Qsum l
  | 2%Z, a :: rest => a - Qsum rest
  | 3%Z, l => Qsum l / inject_Z (Z.of_nat (List.length l))
  | _, a :: _ => a
  end.

(** [remapValue] with the value ramp a new node has (linear from 0 at 0 to 1
    at 1), which the build never edits: the input is normalised on
    [inputMin, inputMax], kept in [0, 1], and mapped linearly to
    [outputMin, outputMax].  A new node has [inputMin = 0], [inputMax = 1],
    [outputMin = 0], [outputMax = 1]. *)
Record remapValue := {
  rv_inputValue : Q;
  rv_inputMin : Q;
  rv_inputMax : Q;
  rv_outputMin : Q;
  rv_outputMax : Q
}.

Definition rv_outValue (n : remapValue) : Q :=
  let t := (rv_inputValue n - rv_inputMin n) / (rv_inputMax n - rv_inputMin n) in
  rv_outputMin n + Qclamp 0 1 t * (rv_outputMax n - rv_outputMin n).

(** [condition]: [operation] is 0 equal, 1 not equal, 2 greater than,
    3 greater or equal, 4 less than, 5 less or equal, comparing [firstTerm]
    with [secondTerm].  A new node has [operation = 0], both terms 0,
    [colorIfTrue = (0,0,0)] and [colorIfFalse = (1,1,1)]. *)
Record condition := {
  cond_operation : Z;
  cond_firstTerm : Q;
  cond_secondTerm : Q;
  cond_colorIfTrue : double3;
  cond_colorIfFalse : double3
}.

Definition cond_holds (n : condition) : bool :=
  let a := cond_firstTerm n in
  let b := cond_secondTerm n in
  match cond_operation n with
  | 0%Z => Qeq_bool a b
  | 1%Z => negb (Qeq_bool a b)
  | 2%Z => negb (Qle_bool a b)
  | 3%Z => Qle_bool b a
  | 4%Z => negb (Qle_bool b a)
  | 5%Z => Qle_bool a b
  | _ => false
  end.

Definition cond_outColor (n : condition) : double3 :=
  if cond_holds n then cond_colorIfTrue n else cond_colorIfFalse n.

Section MultiplyDivide.

(** What a dividing [multiplyDivide] outputs on a channel whose divisor is
    zero is the host's business; it is a parameter of everything below. *)
Variable divide_by_zero : Q -> Q.

Definition md_divide (a b : Q) : Q :=
  if Qeq_bool b 0 then divide_by_zero a else a / b.

(** [multiplyDivide]: [operation] 1 multiplies [input1] by [input2] channel
    by channel, 2 divides, 0 passes [input1] through; 3 (power) is not used
    by the build and not modelled.  A new node has [operation = 1],
    [input1 = (0,0,0)] and [input2 = (1,1,1)]. *)
Record multiplyDivide := {
  md_operation : Z;
  md_input1 : double3;
  md_input2 : double3
}.

Definition md_output (n : multiplyDivide) : double3 :=
  match md_operation n with
  | 1%Z => d3_map2 Qmult (md_input1 n) (md_input2 n)
  | 2%Z => d3_map2 md_divide (md_input1 n) (md_input2 n)
  | _ => md_input1 n
  end.

End MultiplyDivide.

(* ================================================================== *)
(** * Control placement *)
(* ================================================================== *)

(** [range(start, stop)]. *)
Definition py_range (start stop : Z) : list Z :=
  map (fun i => (start + Z.of_nat i)%Z) (seq 0 (Z.to_nat (stop - start))).

(** [current_value = value / (number_of_controls+1)]; inside the loop the
    divisor is at least 2. *)
Definition current_value (number_of_controls value : Z) : Q :=
  inject_Z value / inject_Z (number_of_controls + 1).

(** The default of the [position] attribute of each control, in creation
    order: the loop [for value in range(1, number_of_controls+1)]. *)
Definition control_positions (number_of_controls : Z) : list Q :=
  map (current_value number_of_controls) (py_range 1 (number_of_controls + 1)).

(** The animator-facing attributes of a control that the network reads;
    [rotate] is in the angle unit of the scene, the same at both ends of the
    network. *)
Record Control := {
  position : Q;
  falloff : Q;
  rotate : double3
}.

(** A control as the loop leaves it: [position] at its default, [falloff]
    at 0.2, no rotation. *)
Definition new_control (number_of_controls value : Z) : Control :=
  {| position := current_value number_of_controls value;
     falloff := 0.2;
     rotate := d3_zero |}.

(** The limits [addAttr] puts on [position] (0..1) and [falloff] (0.1..0.5). *)
Definition within_limits (c : Control) : Prop :=
  0 <= position c <= 1 /\ 0.1 <= falloff c <= 0.5.

(** [joints_effected_multi]: [falloff -> input1X], [input2X = 2.0]. *)
Definition joints_effected_multi (c : Control) : multiplyDivide :=
  {| md_operation := 1;
     md_input1 := D3 (falloff c) 0 0;
     md_input2 := D3 2.0 1 1 |}.

Section Rig.

Variable divide_by_zero : Q -> Q.

(** [len(selection)], the number of joints the build runs on. *)
Variable joint_count : Z.

(** [joint_effected_remap]: [joints_effected_multi.outputX -> inputValue],
    [outputMin = 1], [outputMax = len(selection)]. *)
Definition joint_effected_remap (c : Control) : remapValue :=
  {| rv_inputValue := chX (md_output divide_by_zero (joints_effected_multi c));
     rv_inputMin := 0;
     rv_inputMax := 1;
     rv_outputMin := 1;
     rv_outputMax := inject_Z joint_count |}.

(** The control's [numOfJointsEffected], driven by the remap's [outValue]. *)
Definition numOfJointsEffected (c : Control) : Q :=
  rv_outValue (joint_effected_remap c).

(* ================================================================== *)
(** * Falloff network of one (joint, control) pair *)
(* ================================================================== *)

(** [falloff_rear_position]: [position - falloff]. *)
Definition falloff_rear_position (c : Control) : plusMinusAverage :=
  {| pma_operation := 2; pma_input1D := [position c; falloff c] |}.

(** [falloff_front_position]: [position + falloff] (the operation is left
    at its default). *)
Definition falloff_front_position (c : Control) : plusMinusAverage :=
  {| pma_operation := 1; pma_input1D := [position c; falloff c] |}.

(** The two passes of [for falloff_position in [rear, front]]: the rear pass
    feeds channel X of [rotation_multiplier], the front pass channel Y. *)
Inductive Side := rear | front.

Definition falloff_position (c : Control) (s : Side) : plusMinusAverage :=
  match s with
  | rear => falloff_rear_position c
  | front => falloff_front_position c
  end.

(** [jnt_pos_minus_falloff_pos]: [jointPosition - falloff_position]. *)
Definition jnt_pos_minus_falloff_pos
    (c : Control) (jointPosition : Q) (s : Side) : plusMinusAverage :=
  {| pma_operation := 2;
     pma_input1D := [jointPosition; pma_output1D (falloff_position c s)] |}.

(** [ctrl_pos_minus_falloff_pos]: [position - falloff_position]. *)
Definition ctrl_pos_minus_falloff_pos (c : Control) (s : Side) : plusMinusAverage :=
  {| pma_operation := 2;
     pma_input1D := [position c; pma_output1D (falloff_position c s)] |}.

(** [rotation_multiplier]: a divide; [input1X / input2X] is the rear ratio,
    [input1Y / input2Y] the front ratio, channel Z keeps its defaults. *)
Definition rotation_multiplier (c : Control) (jointPosition : Q) : multiplyDivide :=
  {| md_operation := 2;
     md_input1 :=
       D3 (pma_output1D (jnt_pos_minus_falloff_pos c jointPosition rear))
          (pma_output1D (jnt_pos_minus_falloff_pos c jointPosition front))
          0;
     md_input2 :=
       D3 (pma_output1D (ctrl_pos_minus_falloff_pos c rear))
          (pma_output1D (ctrl_pos_minus_falloff_pos c front))
          1 |}.

(** [side_switch_condition]: [operation = 3], [position -> firstTerm],
    [jointPosition -> secondTerm], [outputX -> colorIfTrueR],
    [outputY -> colorIfFalseR]. *)
Definition side_switch_condition (c : Control) (jointPosition : Q) : condition :=
  let ratios := md_output divide_by_zero (rotation_multiplier c jointPosition) in
  {| cond_operation := 3;
     cond_firstTerm := position c;
     cond_secondTerm := jointPosition;
     cond_colorIfTrue := D3 (chX ratios) 0 0;
     cond_colorIfFalse := D3 (chY ratios) 1 1 |}.

(** The weight of the pair: [side_switch_condition.outColorR]. *)
Definition sideSelect (c : Control) (jointPosition : Q) : Q :=
  chX (cond_outColor (side_switch_condition c jointPosition)).

(** [control_rotation_by_rot_multi]: the weight on all three channels of
    [input1], the control's [rotate] on [input2]. *)
Definition control_rotation_by_rot_multi
    (c : Control) (jointPosition : Q) : multiplyDivide :=
  {| md_operation := 1;
     md_input1 := d3_fill (sideSelect c jointPosition);
     md_input2 := rotate c |}.

(** [number_of_joints_division_multi]: a divide with [input1X = 1] and
    [numOfJointsEffected -> input2X]. *)
Definition number_of_joints_division_multi (c : Control) : multiplyDivide :=
  {| md_operation := 2;
     md_input1 := D3 1 0 0;
     md_input2 := D3 (numOfJointsEffected c) 1 1 |}.

(** [num_jnts_times_ctrl_rot_multi]: the quotient on all three channels of
    [input1], the weighted rotation on [input2]. *)
Definition num_jnts_times_ctrl_rot_multi
    (c : Control) (jointPosition : Q) : multiplyDivide :=
  {| md_operation := 1;
     md_input1 :=
       d3_fill (chX (md_output divide_by_zero (number_of_joints_division_multi c)));
     md_input2 :=
       md_output divide_by_zero (control_rotation_by_rot_multi c jointPosition) |}.

(** [final_multiplier_multi]: [input2X], [input2Y] and [input2Z] are set
    to 6. *)
Definition final_multiplier_multi
    (c : Control) (jointPosition : Q) : multiplyDivide :=
  {| md_operation := 1;
     md_input1 :=
       md_output divide_by_zero (num_jnts_times_ctrl_rot_multi c jointPosition);
     md_input2 := D3 6 6 6 |}.

(** The per-control share: [final_multiplier_multi.output]. *)
Definition perControlShare (c : Control) (jointPosition : Q) : double3 :=
  md_output divide_by_zero (final_multiplier_multi c jointPosition).

(** [final_condition]: [operation = 2], the weight on [firstTerm],
    [secondTerm] at its default 0, the share on [colorIfTrue],
    [colorIfFalse = (0,0,0)]. *)
Definition final_condition (c : Control) (jointPosition : Q) : condition :=
  {| cond_operation := 2;
     cond_firstTerm := sideSelect c jointPosition;
     cond_secondTerm := 0;
     cond_colorIfTrue := perControlShare c jointPosition;
     cond_colorIfFalse := D3 0 0 0 |}.

(** What [final_condition.outColor] drives onto the offset group's
    [rotate]. *)
Definition offset_group_rotate (c : Control) (jointPosition : Q) : double3 :=
  cond_outColor (final_condition c jointPosition).

End Rig.

(* ================================================================== *)
(** * Joint position sampling *)
(* ================================================================== *)

(** A Python value or the name of the exception raised instead. *)
Inductive PyResult (A : Type) : Type :=
| Value (a : A)
| Exception (name : string).

Arguments Value {A} a.
Arguments Exception {A} name.

(** Python's [a / b] on floats. *)
Definition py_truediv (a b : Q) : PyResult Q :=
  if Qeq_bool b 0 then Exception "ZeroDivisionError" else Value (a / b).

(** [normalized_joint_v_position = current_joint_v_position / max_v_range]. *)
Definition normalized_joint_v_position
    (current_joint_v_position max_v_range : Q) : PyResult Q :=
  py_truediv current_joint_v_position max_v_range.

(** The [jointPosition] values set by the joint loop, in selection order.
    [parameterVs] holds, per selected joint, the [parameterV] the closest
    point node reports for it; the loop stops at the first exception. *)
Fixpoint joint_positions (max_v_range : Q) (parameterVs : list Q)
    : PyResult (list Q) :=
  match parameterVs with
  | [] => Value []
  | v :: rest =>
      match normalized_joint_v_position v max_v_range with
      | Exception e => Exception e
      | Value p =>
          match joint_positions max_v_range rest with
          | Exception e => Exception e
          | Value ps => Value (p :: ps)
          end
      end
  end.

(* ================================================================== *)
(** * The scene and the entry of the build *)
(* ================================================================== *)

(** The part of the scene the entry of the build reads and edits: the nodes
    with their types, and the current selection. *)
Record Scene := {
  scene_nodes : list (string * string);
  scene_selection : list string
}.

(** A host command either returns or raises (as [cmds.error] does), and
    leaves a scene behind in both cases. *)
Inductive Outcome (A : Type) : Type :=
| Returned (a : A) (s : Scene)
| Raised (message : string) (s : Scene).

Arguments Returned {A} a s.
Arguments Raised {A} message s.

Definition Cmd (A : Type) : Type := Scene -> Outcome A.

Definition ret {A : Type} (a : A) : Cmd A := fun s => Returned a s.

Definition bind {A B : Type} (m : Cmd A) (k : A -> Cmd B) : Cmd B :=
  fun s =>
    match m s with
    | Returned a s' => k a s'
    | Raised msg s' => Raised msg s'
    end.

Declare Scope cmd_scope.
Delimit Scope cmd_scope with cmd.
Notation "x <- m ;; k" := (bind m (fun x => k))
  (at level 61, m at next level, right associativity) : cmd_scope.
Notation "m ;; k" := (bind m (fun _ => k))
  (at level 61, right associativity) : cmd_scope.

Module cmds.

Definition lookup_type (n : string) (nodes : list (string * string))
    : option string :=
  match find (fun e => String.eqb (fst e) n) nodes with
  | Some e => Some (snd e)
  | None => None
  end.

Definition is_type (ty n : string) (s : Scene) : bool :=
  match lookup_type n (scene_nodes s) with
  | Some t => String.eqb t ty
  | None => false
  end.

(** [cmds.error(message)]. *)
Definition error {A : Type} (message : string) : Cmd A :=
  fun s => Raised message s.

(** [cmds.ls(selection=True, type=ty)]: the selected nodes of that type, in
    selection order. *)
Definition ls_selection (ty : string) : Cmd (list string) :=
  fun s => Returned (filter (fun n => is_type ty n s) (scene_selection s)) s.

(** [cmds.nodeType(n)]. *)
Definition nodeType (n : string) : Cmd string :=
  fun s =>
    match lookup_type n (scene_nodes s) with
    | Some t => Returned t s
    | None => Raised "No object matches name" s
    end.

(** A command that creates the transform [n]. *)
Definition create_transform (n : string) : Cmd string :=
  fun s =>
    Returned n {| scene_nodes := scene_nodes s ++ [(n, "transform")];
                  scene_selection := scene_selection s |}.

(** [cmds.delete(a, b)]. *)
Definition delete (doomed : list string) : Cmd unit :=
  fun s =>
    Returned tt
      {| scene_nodes :=
           filter (fun e => negb (existsb (String.eqb (fst e)) doomed))
                  (scene_nodes s);
         scene_selection := scene_selection s |}.

End cmds.

Section Entry.

Open Scope cmd_scope.

Variable cfg : NamingConfig.

(** The name the host gives to the copy made by [cmds.duplicate]. *)
Variable copy_name : string -> string.

(** Everything [build_variable_fk] does after it has the surface: the
    controls, the joints, the falloff network and the binding. *)
Variable rig_construction : Z -> list string -> string -> Cmd unit.

(** [any(cmds.nodeType(jnt) != "joint" for jnt in joints)]. *)
Fixpoint any_not_joint (joints : list string) : Cmd bool :=
  match joints with
  | [] => ret false
  | jnt :: rest =>
      t <- cmds.nodeType jnt ;;
      if negb (String.eqb t "joint") then ret true else any_not_joint rest
  end.

(** The block under [# Check joints] at the top of [create_nurbs_surface]:
    the two guards, which only read the scene. *)
Definition check_joints (joints : list string) : Cmd unit :=
  (if (List.length joints <? 3)%nat
   then cmds.error "Please select at least 3 input joints"
   else ret tt) ;;
  bad <- any_not_joint joints ;;
  if bad then cmds.error "Select only joints" else ret tt.

(** [create_nurbs_surface(joints)].  Positions and moves are geometry the
    node table does not record, and the host is taken to accept the curve
    and the loft: the curve, its copy and the lofted surface are created,
    then the two curves deleted. *)
Definition create_nurbs_surface (joints : list string) : Cmd string :=
  check_joints joints ;;
  crv <- cmds.create_transform "temp_variable_fk_curve" ;;
  duplicated_curve <- cmds.create_transform (copy_name crv) ;;
  nurbs_surface <- cmds.create_transform (name_object cfg "surface" "__" true) ;;
  cmds.delete [duplicated_curve; crv] ;;
  ret nurbs_surface.

(** [build_variable_fk(number_of_controls, ...)]. *)
Definition build_variable_fk (number_of_controls : Z) : Cmd unit :=
  selection <- cmds.ls_selection "joint" ;;
  (match selection with
   | [] => cmds.error "Nothing selected"
   | _ :: _ => ret tt
   end) ;;
  nurbs_surface <- create_nurbs_surface selection ;;
  rig_construction number_of_controls selection nurbs_surface.

End Entry.

(* ================================================================== *)
(** * Sample inputs *)
(* ================================================================== *)

(** The middle control of three, at its defaults, turned by 10 degrees
    about X. *)
Definition example_control : Control :=
  {| position := 0.5; falloff := 0.2; rotate := D3 10 0 0 |}.

(** Four selected joints together with a selected polygon cube. *)
Definition mixed_selection_scene : Scene :=
  {| scene_nodes :=
       [("joint1", "joint"); ("joint2", "joint"); ("joint3", "joint");
        ("joint4", "joint"); ("pCube1", "transform")]%string;
     scene_selection :=
       ["joint1"; "joint2"; "pCube1"; "joint3"; "joint4"]%string |}.

(* ================================================================== *)
(** * Names generated by the loops *)
(* ================================================================== *)

Open Scope string_scope.

(** How an f-string prints a Python [int]: decimal digits, with a leading
    minus sign for a negative number. *)
Definition py_str_int (z : Z) : string :=
  DecimalString.NilZero.string_of_int (Z.to_int z).

Section GeneratedNames.

Variable cfg : NamingConfig.

(** [current_node_name(label)] of the control loop, for the loop value
    [value]: [name_object(node_name=f"0{value}_{label}")]. *)
Definition current_node_name (value : Z) (label : string) : string :=
  name_object cfg "__" ("0" ++ py_str_int value ++ "_" ++ label) true.

(** The name asked for the copy of the joint at position [index] of the
    selection: [name_object(node_name=f"0{index+1}_ctrl_jnt")]. *)
Definition duplicated_joint_name (index : nat) : string :=
  name_object cfg "__"
    ("0" ++ py_str_int (Z.of_nat index + 1) ++ "_ctrl_jnt") true.

(** [duplicated_joint_parent]: [name_object(node_name=f"0{index}_ctrl_jnt")]. *)
Definition duplicated_joint_parent (index : nat) : string :=
  name_object cfg "__" ("0" ++ py_str_int (Z.of_nat index) ++ "_ctrl_jnt") true.

(** The [name] passed to [create_offset_group] for control [ctrl]:
    [f"0{index+1}_ctrl_jnt_0{ctrl}_offset_grp"]. *)
Definition joint_offset_group_label (index : nat) (ctrl : Z) : string :=
  "0" ++ py_str_int (Z.of_nat index + 1) ++ "_ctrl_jnt_0"
      ++ py_str_int ctrl ++ "_offset_grp".

(** The [name] passed for the main offset group:
    [f"0{index+1}_ctrl_jnt_main_offset_grp"]. *)
Definition main_offset_group_label (index : nat) : string :=
  "0" ++ py_str_int (Z.of_nat index + 1) ++ "_ctrl_jnt_main_offset_grp".

End GeneratedNames.

(* ================================================================== *)
(** * [create_node] *)
(* ================================================================== *)

(** The dependency graph as [create_node] edits it: the nodes with their
    types, the connections (source plug, destination plug) in the order
    they were made, and the values set on plugs, latest first. *)
Record Graph := {
  graph_nodes : list (string * string);
  graph_connections : list (string * string);
  graph_values : list (string * Q)
}.

(** [filter_name = lambda string: string.replace("*", node)]. *)
Definition filter_name (node text : string) : string :=
  PyStr.replace "*" node text.

Definition createNode (type name : string) (g : Graph) : Graph :=
  {| graph_nodes := graph_nodes g ++ [(name, type)];
     graph_connections := graph_connections g;
     graph_values := graph_values g |}.

Definition connectAttr (connection : string * string) (g : Graph) : Graph :=
  {| graph_nodes := graph_nodes g;
     graph_connections := graph_connections g ++ [connection];
     graph_values := graph_values g |}.

Definition setAttr (assignment : string * Q) (g : Graph) : Graph :=
  {| graph_nodes := graph_nodes g;
     graph_connections := graph_connections g;
     graph_values := assignment :: graph_values g |}.

(** [create_node(type, name, connect_attrs, set_attrs)]; [None] stands for
    an argument left at its default.  The host is taken to give the node the
    name asked for and to accept every connection. *)
Definition create_node (type name : string)
    (connect_attrs : option (list (string * string)))
    (set_attrs : option (list (string * Q))) (g : Graph) : string * Graph :=
  let node := name in
  let g := createNode type name g in
  let g :=
    match connect_attrs with
    | None => g
    | Some attrs =>
        let filter_connect_attrs :=
          map (fun attribute =>
                 (filter_name node (fst attribute),
                  filter_name node (snd attribute))) attrs in
        fold_left (fun g connect_attr_set => connectAttr connect_attr_set g)
                  filter_connect_attrs g
    end in
  let g :=
    match set_attrs with
    | None => g
    | Some attrs =>
        let filter_set_attrs :=
          map (fun attribute =>
                 (filter_name node (fst attribute), snd attribute)) attrs in
        fold_left (fun g set_attr => setAttr set_attr g) filter_set_attrs g
    end in
  (node, g).

(* ================================================================== *)
(** * [create_offset_group] and the offset chain of a joint *)
(* ================================================================== *)

(** The transform hierarchy: the nodes, and for each node its parent
    ([None] for a node at the top, parented to the world). *)
Record Hierarchy := {
  h_nodes : list string;
  h_parent : string -> option string
}.

(** [cmds.parent(child, parent)], and [cmds.parent(child, world=True)] with
    [None]. *)
Definition set_parent (child : string) (parent : option string)
    (h : Hierarchy) : Hierarchy :=
  {| h_nodes := h_nodes h;
     h_parent := fun n => if String.eqb n child then parent else h_parent h n |}.

(** [cmds.group(empty=True, name=n)]: a new transform under the world. *)
Definition group_empty (n : string) (h : Hierarchy) : Hierarchy :=
  {| h_nodes := h_nodes h ++ [n];
     h_parent := fun x => if String.eqb x n then None else h_parent h x |}.

(** [cmds.duplicate(jnt, name=n, parentOnly=True)]: the copy appears beside
    the original, under the same parent. *)
Definition duplicate_parent_only (jnt n : string) (h : Hierarchy) : Hierarchy :=
  {| h_nodes := h_nodes h ++ [n];
     h_parent := fun x => if String.eqb x n then h_parent h jnt else h_parent h x |}.

(** [cmds.objExists(n)]. *)
Definition objExists (n : string) (h : Hierarchy) : bool :=
  existsb (String.eqb n) (h_nodes h).

Section OffsetGroups.

Variable cfg : NamingConfig.

(** [create_offset_group(name, target)]; the placement of the group on the
    target ([xform]) is geometry the hierarchy does not record, and the host
    is taken to give the group the name asked for. *)
Definition create_offset_group (name target : string) (h : Hierarchy)
    : string * Hierarchy :=
  let target_original_parent := h_parent h target in
  let offset_group := name_object cfg "__" name true in
  let h := group_empty offset_group h in
  let h := set_parent target (Some offset_group) h in
  match target_original_parent with
  | Some p => (offset_group, set_parent offset_group (Some p) h)
  | None => (offset_group, h)
  end.

(** The comprehension [[create_offset_group(name=..., target=...) for ...]]
    over a list of names, all on one target. *)
Fixpoint create_offset_groups (names : list string) (target : string)
    (h : Hierarchy) : list string * Hierarchy :=
  match names with
  | [] => ([], h)
  | name :: rest =>
      let (offset_group, h1) := create_offset_group name target h in
      let (groups, h2) := create_offset_groups rest target h1 in
      (offset_group :: groups, h2)
  end.

(** What one pass of the joint loop does to the hierarchy, for the joint
    [jnt] at position [index] of the selection: the copy, its move to the
    world, one offset group per control, the main offset group above the
    first of them, and the parenting under the previous copy when a node of
    that name exists.  [joint_offset_groups[0]] raises [IndexError] on an
    empty list. *)
Definition joint_hierarchy (number_of_controls : Z) (index : nat)
    (jnt : string) (h : Hierarchy) : PyResult Hierarchy :=
  let duplicated_joint := duplicated_joint_name cfg index in
  let h := duplicate_parent_only jnt duplicated_joint h in
  let h := set_parent duplicated_joint None h in
  let (joint_offset_groups, h) :=
    create_offset_groups
      (map (joint_offset_group_label index)
           (py_range 1 (number_of_controls + 1)))
      duplicated_joint h in
  match joint_offset_groups with
  | [] => Exception "IndexError"
  | first :: _ =>
      let (joint_parent_offset_group, h) :=
        create_offset_group (main_offset_group_label index) first h in
      let parent := duplicated_joint_parent cfg index in
      if objExists parent h
      then Value (set_parent joint_parent_offset_group (Some parent) h)
      else Value h
  end.

End OffsetGroups.

(* ================================================================== *)
(** * Orientation of the controls *)
(* ================================================================== *)

Open Scope Q_scope.

(** [min(iterable, key=key)] once a first element is in hand: a later
    element replaces the best one only when its key is strictly smaller. *)
Fixpoint py_min_from (key : Q -> Q) (best : Q) (rest : list Q) : Q :=
  match rest with
  | [] => best
  | x :: rest' =>
      if negb (Qle_bool (key best) (key x))
      then py_min_from key x rest'
      else py_min_from key best rest'
  end.

(** [min(l, key=key)]; an empty list raises [ValueError]. *)
Definition py_min (key : Q -> Q) (l : list Q) : PyResult Q :=
  match l with
  | [] => Exception "ValueError"
  | x :: rest => Value (py_min_from key x rest)
  end.

(** [l.index(v)]: the first position holding a value equal to [v]; none
    raises [ValueError]. *)
Fixpoint py_index (v : Q) (l : list Q) : PyResult nat :=
  match l with
  | [] => Exception "ValueError"
  | x :: rest =>
      if Qeq_bool x v then Value O
      else match py_index v rest with
           | Value i => Value (S i)
           | Exception e => Exception e
           end
  end.

(** The position in [control_joints] of the joint a control is oriented to:
    [joint_positions.index(min(joint_positions, key=lambda p:
    abs(p - ctrl_position)))]. *)
Definition closest_joint_index (joint_positions : list Q) (ctrl_position : Q)
    : PyResult nat :=
  match py_min (fun current_joint_position =>
                  Qabs (current_joint_position - ctrl_position))
               joint_positions with
  | Exception e => Exception e
  | Value closest_joint_position =>
      py_index closest_joint_position joint_positions
  end.

(* ================================================================== *)
(** * Facts about the string primitives *)
(* ================================================================== *)

Module PyStrFacts.
Import PyStr.

Open Scope string_scope.

Lemma starts_with_cons (a b : ascii) (p s : string) :
  starts_with (String a p) (String b s) = Ascii.eqb a b && starts_with p s.
Proof. simpl. destruct (Ascii.eqb a b); reflexivity. Qed.

Lemma append_assoc (a b c : string) : ((a ++ b) ++ c = a ++ (b ++ c))%string.
Proof. induction a as [|x a IH]; simpl; [reflexivity | now rewrite IH]. Qed.

(** A prefix test that fits inside the first part of a concatenation does
    not look at the second part. *)
Lemma starts_with_app (q x y : string) :
  (String.length q <= String.length x)%nat ->
  starts_with q (x ++ y) = starts_with q x.
Proof.
  revert x. induction q as [|a q IH]; intros x Hlen.
  - reflexivity.
  - destruct x as [|b x]; simpl in Hlen; [lia|].
    simpl. destruct (Ascii.eqb a b); [apply IH; lia | reflexivity].
Qed.

Lemma length_append (a b : string) :
  String.length (a ++ b) = (String.length a + String.length b)%nat.
Proof. induction a as [|x a IH]; simpl; [reflexivity | now rewrite IH]. Qed.

(** Passing over [k] characters is scanning the slice [s[k:]]. *)
Lemma replace_scan_skip (old new : string) (k : nat) (s : string) :
  replace_scan old new k s = replace_scan old new 0 (drop k s).
Proof.
  revert k. induction s as [|c t IH]; intros [|k]; simpl; try reflexivity.
  apply IH.
Qed.

(** The scan that [name_object] runs. *)
Local Abbreviation strip := (replace "___" "").

Lemma strip_nil : strip "" = "".
Proof. reflexivity. Qed.

Lemma strip_match (u : string) : strip ("___" ++ u) = strip u.
Proof.
  unfold replace. simpl.
  destruct u as [|a [|b u]]; reflexivity.
Qed.

Lemma strip_emit (c : ascii) (t : string) :
  starts_with "___" (String c t) = false ->
  strip (String c t) = String c (strip t).
Proof.
  intros H. unfold replace.
  cbn [replace_scan]. rewrite H. reflexivity.
Qed.

(** A string that starts with ["___"] is ["___"] followed by a rest. *)
Lemma starts_with_triple (s : string) :
  starts_with "___" s = true -> exists u, s = "___" ++ u.
Proof.
  destruct s as [|a [|b [|c u]]]; try discriminate.
  - rewrite starts_with_cons. simpl. rewrite andb_false_r. discriminate.
  - rewrite !starts_with_cons. simpl. rewrite !andb_false_r. discriminate.
  - rewrite !starts_with_cons. intros H.
    apply andb_true_iff in H as [Ha H].
    apply andb_true_iff in H as [Hb H].
    apply andb_true_iff in H as [Hc _].
    apply Ascii.eqb_eq in Ha, Hb, Hc. subst. now exists u.
Qed.

Lemma starts_with_weaken (a : ascii) (p s : string) :
  starts_with (String a p) s = true -> starts_with (String a "") s = true.
Proof.
  destruct s as [|b s]; [discriminate|].
  rewrite !starts_with_cons.
  destruct (Ascii.eqb a b); [reflexivity | discriminate].
Qed.

(** The output starts with an underscore only if the input does. *)
Lemma strip_head1 (s : string) :
  starts_with "_" (strip s) = true -> starts_with "_" s = true.
Proof.
  destruct (starts_with "___" s) eqn:E.
  - intros _. now apply starts_with_weaken in E.
  - destruct s as [|c t]; [discriminate|].
    rewrite (strip_emit _ _ E). simpl. intros H; exact H.
Qed.

(** The output starts with two underscores only if the input does. *)
Lemma strip_head2 (s : string) :
  starts_with "__" (strip s) = true -> starts_with "__" s = true.
Proof.
  destruct (starts_with "___" s) eqn:E.
  - intros _. destruct (starts_with_triple _ E) as [u ->]. reflexivity.
  - destruct s as [|c t]; [discriminate|].
    rewrite (strip_emit _ _ E).
    rewrite !starts_with_cons. intros H.
    apply andb_true_iff in H as [Hc Ht]. rewrite Hc. simpl.
    apply strip_head1. exact Ht.
Qed.

(** After the scan no run of three underscores is left. *)
Lemma strip_no_triple (s : string) : contains "___" (strip s) = false.
Proof.
  remember (String.length s) as n eqn:Hn.
  revert s Hn. induction n as [n IH] using lt_wf_ind. intros s Hn.
  destruct (starts_with "___" s) eqn:E.
  - destruct (starts_with_triple _ E) as [u ->].
    rewrite strip_match. apply (IH (String.length u)); [|reflexivity].
    subst n. simpl. lia.
  - destruct s as [|c t]; [reflexivity|].
    rewrite (strip_emit _ _ E).
    cbn [contains]. apply orb_false_iff. split.
    + destruct (starts_with "___" (String c (strip t))) eqn:F; [|reflexivity].
      exfalso.
      change "___" with (String "_" "__") in F, E.
      rewrite starts_with_cons in F, E.
      apply andb_true_iff in F as [Fc Ft].
      apply strip_head2 in Ft. rewrite Fc, Ft in E. discriminate.
    + apply (IH (String.length t)); [|reflexivity].
      subst n. simpl. lia.
Qed.

Lemma contains_cons_false (sub : string) (c : ascii) (s : string) :
  contains sub (String c s) = false ->
  starts_with sub (String c s) = false /\ contains sub s = false.
Proof. cbn [contains]. intros H. now apply orb_false_iff in H. Qed.

(** The scan copies everything before the first run of three underscores,
    drops the run, and goes on behind it. *)
Lemma strip_first_match (pre post : string) :
  contains "___" (pre ++ "__") = false ->
  strip (pre ++ "___" ++ post) = pre ++ strip post.
Proof.
  induction pre as [|c p IH]; intros H.
  - apply strip_match.
  - change (String c p ++ "__") with (String c (p ++ "__")) in H.
    apply contains_cons_false in H as [Hhd Htl].
    change (String c p ++ "___" ++ post)
      with (String c (p ++ "___" ++ post)).
    rewrite strip_emit.
    + simpl. f_equal. apply IH. exact Htl.
    + change (String c (p ++ "___" ++ post))
        with (String c p ++ ("__" ++ "_") ++ post).
      rewrite <- (append_assoc (String c p) ("__" ++ "_") post).
      rewrite <- (append_assoc (String c p) "__" "_").
      rewrite append_assoc.
      rewrite starts_with_app; [exact Hhd|].
      simpl. rewrite length_append. simpl. lia.
Qed.

(** A string without such a run is returned as it is. *)
Lemma strip_clean (s : string) :
  contains "___" s = false -> strip s = s.
Proof.
  induction s as [|c t IH]; intros H; [reflexivity|].
  apply contains_cons_false in H as [Hhd Htl].
  rewrite (strip_emit _ _ Hhd). f_equal. apply IH. exact Htl.
Qed.

End PyStrFacts.

(* ================================================================== *)
(** * Naming service: theorems *)
(* ================================================================== *)

Open Scope string_scope.

Example name_object_surface :
  name_object module_config "surface" "__" true = "surface_trunk_var_fk".
Proof. reflexivity. Qed.

Example name_object_ctrl :
  name_object module_config "__" "01_ctrl" true = "trunk_var_fk_01_ctrl".
Proof. reflexivity. Qed.

Example name_object_starter :
  starter_node_name module_config "trunk_var_fk_01_ctrl_jnt_01_offset_grp"
    "final_multi"
  = "trunk_var_fk_01_ctrl_jnt_01_offset_grp_final_multi".
Proof. reflexivity. Qed.

(** In the falloff loop the rear bound node is taken for the rear side and
    the front bound node is not: its name does not occur in the rear one. *)
Example is_rear_side_of_bounds :
  let grp := "trunk_var_fk_01_ctrl_jnt_01_offset_grp" in
  is_rear_side module_config grp
    (starter_node_name module_config grp "ctrlpos_minus_falloff_pma") = true /\
  is_rear_side module_config grp
    (starter_node_name module_config grp "ctrlpos_plus_falloff_pma") = false.
Proof. split; vm_compute; reflexivity. Qed.

(** C7, as stated, fails: with every field left out ([name = "__"],
    [node_name = "__"], no system name) the module's configuration composes
    eight underscores, the scan removes two runs of three, and the returned
    name is the doubled separator itself. *)
Lemma name_object_keeps_doubled_separator :
  name_object module_config "__" "__" false = "__" /\
  PyStr.contains "__" (name_object module_config "__" "__" false) = true.
Proof. split; reflexivity. Qed.

(** C7, amended: for every configuration the naming function is
    deterministic (calls with identical arguments return identical
    strings) and no returned name contains three consecutive underscores. *)
Theorem name_object_deterministic_no_triple
    (cfg : NamingConfig) (name1 name2 node1 node2 : string) (inc1 inc2 : bool) :
  name1 = name2 -> node1 = node2 -> inc1 = inc2 ->
  name_object cfg name1 node1 inc1 = name_object cfg name2 node2 inc2 /\
  PyStr.contains "___" (name_object cfg name1 node1 inc1) = false.
Proof.
  intros -> -> ->. split; [reflexivity|].
  unfold name_object. apply PyStrFacts.strip_no_triple.
Qed.

Lemma name_object_deterministic_no_triple_witness :
  name_object module_config "shoulder" "ctrl" true
  = name_object module_config "shoulder" "ctrl" true /\
  PyStr.contains "___" (name_object module_config "shoulder" "ctrl" true) = false.
Proof.
  apply (name_object_deterministic_no_triple module_config
           "shoulder" "shoulder" "ctrl" "ctrl" true true); reflexivity.
Defined.

(** C9: the scan of [name_object] works on the whole composed string.  The
    text before the leftmost run of three underscores is copied, the run is
    dropped and the scan goes on behind it; a composed string without such a
    run is returned unchanged.  So a run inside the caller's base name or
    node tag is deleted too: ["a___b"] comes back as ["ab"], ["x___y"] as
    ["xy"], and the field as the caller wrote it no longer occurs in the
    name. *)
Theorem name_object_deletes_field_underscores :
  (forall cfg name node_name inc pre post,
      composed_name cfg name node_name inc = pre ++ "___" ++ post ->
      PyStr.contains "___" (pre ++ "__") = false ->
      name_object cfg name node_name inc = pre ++ PyStr.replace "___" "" post) /\
  (forall cfg name node_name inc,
      PyStr.contains "___" (composed_name cfg name node_name inc) = false ->
      name_object cfg name node_name inc = composed_name cfg name node_name inc) /\
  (name_object module_config "a___b" "ctrl" true = "ab_trunk_var_fk_ctrl" /\
   PyStr.contains "a___b" (name_object module_config "a___b" "ctrl" true) = false) /\
  (name_object module_config "arm" "x___y" true = "arm_trunk_var_fk_xy" /\
   PyStr.contains "x___y" (name_object module_config "arm" "x___y" true) = false).
Proof.
  split; [|split; [|split]].
  - intros cfg name node_name inc pre post Hc Hpre.
    unfold name_object. rewrite Hc.
    apply PyStrFacts.strip_first_match. exact Hpre.
  - intros cfg name node_name inc H. unfold name_object.
    apply PyStrFacts.strip_clean. exact H.
  - split; reflexivity.
  - split; reflexivity.
Qed.

Lemma name_object_deletes_field_underscores_witness :
  name_object module_config "a___b" "ctrl" true
  = "a" ++ PyStr.replace "___" "" "b_trunk_var_fk_ctrl___" /\
  name_object (Build_NamingConfig "rig" "l" true) "arm" "ctrl" true
  = "arm_rig_ctrl_l".
Proof.
  split.
  - apply (proj1 name_object_deletes_field_underscores
             module_config "a___b" "ctrl" true "a" "b_trunk_var_fk_ctrl___");
      reflexivity.
  - apply (proj1 (proj2 name_object_deletes_field_underscores)
             (Build_NamingConfig "rig" "l" true) "arm" "ctrl" true);
      reflexivity.
Defined.


(* ================================================================== *)
(** * Rational arithmetic helpers *)
(* ================================================================== *)

Open Scope Q_scope.

Lemma Qle_bool_false (x y : Q) : Qle_bool x y = false <-> y < x.
Proof.
  split; intros H.
  - destruct (Qlt_le_dec y x) as [L|L]; [exact L|].
    apply Qle_bool_iff in L. congruence.
  - destruct (Qle_bool x y) eqn:E; [|reflexivity].
    apply Qle_bool_iff in E. lra.
Qed.

Lemma Qclamp_cases (lo hi v : Q) :
  lo <= hi ->
  (v <= lo /\ Qclamp lo hi v = lo) \/
  (lo < v /\ hi <= v /\ Qclamp lo hi v = hi) \/
  (lo < v /\ v < hi /\ Qclamp lo hi v = v).
Proof.
  intros Hlh. unfold Qclamp.
  destruct (Qle_bool v lo) eqn:E1.
  - apply Qle_bool_iff in E1. now left.
  - apply Qle_bool_false in E1.
    destruct (Qle_bool hi v) eqn:E2.
    + apply Qle_bool_iff in E2. right; left. now repeat split.
    + apply Qle_bool_false in E2. right; right. now repeat split.
Qed.

Lemma Qclamp_mono (lo hi v w : Q) :
  lo <= hi -> v <= w -> Qclamp lo hi v <= Qclamp lo hi w.
Proof.
  intros Hlh Hvw.
  destruct (Qclamp_cases lo hi v Hlh) as [[? ->]|[(? & ? & ->)|(? & ? & ->)]];
  destruct (Qclamp_cases lo hi w Hlh) as [[? ->]|[(? & ? & ->)|(? & ? & ->)]];
  lra.
Qed.

Lemma Qclamp_inside (lo hi v : Q) :
  lo <= v -> v <= hi -> Qclamp lo hi v == v.
Proof.
  intros H1 H2. assert (Hlh : lo <= hi) by lra.
  destruct (Qclamp_cases lo hi v Hlh) as [[? ->]|[(? & ? & ->)|(? & ? & ->)]];
    lra.
Qed.

Lemma md_divide_nonzero (dz : Q -> Q) (a b : Q) :
  ~ b == 0 -> md_divide dz a b = a / b.
Proof.
  intros H. unfold md_divide.
  destruct (Qeq_bool b 0) eqn:E; [|reflexivity].
  apply Qeq_bool_iff in E. contradiction.
Qed.

(* ================================================================== *)
(** * Control placement: theorems *)
(* ================================================================== *)

Lemma py_range_length (start stop : Z) :
  List.length (py_range start stop) = Z.to_nat (stop - start).
Proof. unfold py_range. now rewrite length_map, length_seq. Qed.

Lemma py_range_nth (start stop : Z) (i : nat) :
  (i < Z.to_nat (stop - start))%nat ->
  nth_error (py_range start stop) i = Some (start + Z.of_nat i)%Z.
Proof.
  intros H. unfold py_range.
  rewrite nth_error_map, nth_error_seq.
  apply Nat.ltb_lt in H. rewrite H. reflexivity.
Qed.

Lemma control_positions_nth (n : Z) (i : nat) :
  (i < Z.to_nat n)%nat ->
  nth_error (control_positions n) i
  = Some (current_value n (1 + Z.of_nat i)).
Proof.
  intros H. unfold control_positions.
  rewrite nth_error_map, py_range_nth; [reflexivity|].
  replace (n + 1 - 1)%Z with n by lia. exact H.
Qed.

Lemma control_positions_length (n : Z) :
  List.length (control_positions n) = Z.to_nat n.
Proof.
  unfold control_positions. rewrite length_map, py_range_length.
  f_equal. lia.
Qed.

(** [value / (n+1)] is the fraction with numerator [value] and denominator
    [n+1]. *)
Lemma current_value_fraction (n value : Z) :
  (0 <= n)%Z -> current_value n value == value # Z.to_pos (n + 1).
Proof.
  intros Hn. unfold current_value, Qdiv, Qinv, inject_Z.
  destruct (n + 1)%Z as [|p|p] eqn:E; try lia.
  simpl. unfold Qeq. simpl. lia.
Qed.

Lemma current_value_lt (n a b : Z) :
  (0 <= n)%Z -> (a < b)%Z -> current_value n a < current_value n b.
Proof.
  intros Hn Hab. rewrite !current_value_fraction by exact Hn.
  unfold Qlt. simpl. apply Z.mul_lt_mono_pos_r; lia.
Qed.

Lemma current_value_inside (n value : Z) :
  (1 <= value <= n)%Z -> 0 < current_value n value < 1.
Proof.
  intros H. rewrite current_value_fraction by lia.
  unfold Qlt. simpl. rewrite Z2Pos.id by lia. lia.
Qed.

(** C8: for [n >= 1] controls the [position] defaults are, in creation
    order, exactly [1/(n+1), 2/(n+1), ..., n/(n+1)]: there are [n] of them,
    the [k]-th is the fraction [k/(n+1)] and lies strictly between 0 and 1,
    and a control created later has a strictly larger position. *)
Theorem control_positions_spacing (n : Z) :
  (1 <= n)%Z ->
  List.length (control_positions n) = Z.to_nat n /\
  (forall k : Z, (1 <= k <= n)%Z ->
     exists p,
       nth_error (control_positions n) (Z.to_nat (k - 1)) = Some p /\
       p = position (new_control n k) /\
       p == k # Z.to_pos (n + 1) /\
       0 < p < 1) /\
  (forall (i j : nat) (p q : Q),
     (i < j)%nat ->
     nth_error (control_positions n) i = Some p ->
     nth_error (control_positions n) j = Some q ->
     p < q).
Proof.
  intros Hn. split; [|split].
  - apply control_positions_length.
  - intros k Hk. exists (current_value n k). repeat split.
    + rewrite control_positions_nth by lia. do 2 f_equal. lia.
    + apply current_value_fraction. lia.
    + apply current_value_inside. exact Hk.
    + apply current_value_inside. exact Hk.
  - intros i j p q Hij Hp Hq.
    assert (Hj : (j < Z.to_nat n)%nat).
    { rewrite <- control_positions_length.
      apply nth_error_Some. rewrite Hq. discriminate. }
    rewrite control_positions_nth in Hp, Hq by lia.
    assert (Ep : p = current_value n (1 + Z.of_nat i)) by congruence.
    assert (Eq : q = current_value n (1 + Z.of_nat j)) by congruence.
    subst p q. apply current_value_lt; lia.
Qed.

Lemma control_positions_spacing_witness :
  control_positions 3 = [current_value 3 1; current_value 3 2; current_value 3 3] /\
  List.length (control_positions 3) = 3%nat /\
  (exists p, nth_error (control_positions 3) 1 = Some p /\
             p == 2 # 4 /\ 0 < p < 1).
Proof.
  split; [reflexivity|].
  assert (H3 : (1 <= 3)%Z) by lia.
  destruct (control_positions_spacing 3 H3) as (Hlen & Hnth & _).
  split; [exact Hlen|].
  assert (H2 : (1 <= 2 <= 3)%Z) by lia.
  destruct (Hnth 2%Z H2) as (p & Hp & _ & Hfrac & Hin).
  exists p. split; [exact Hp|]. split; [exact Hfrac | exact Hin].
Defined.

(* ================================================================== *)
(** * Falloff mapping: theorems *)
(* ================================================================== *)

Ltac node_eval :=
  cbn [md_output md_operation md_input1 md_input2 d3_map2 d3_fill
       chX chY chZ pma_output1D pma_operation pma_input1D Qsum fold_right
       rv_inputValue rv_inputMin rv_inputMax rv_outputMin rv_outputMax
       cond_operation cond_firstTerm cond_secondTerm
       cond_colorIfTrue cond_colorIfFalse
       position falloff rotate].

Section RigFacts.

Variable divide_by_zero : Q -> Q.
Variable joint_count : Z.

Local Abbreviation nje := (numOfJointsEffected divide_by_zero joint_count).
Local Abbreviation weight := (sideSelect divide_by_zero).
Local Abbreviation share := (perControlShare divide_by_zero joint_count).

(** The remap sees the doubled falloff, kept in [0, 1], and spreads it over
    [1, joint_count]. *)
Lemma numOfJointsEffected_formula (c : Control) :
  nje c == 1 + Qclamp 0 1 (falloff c * 2) * (inject_Z joint_count - 1).
Proof.
  unfold numOfJointsEffected, rv_outValue, joint_effected_remap,
    joints_effected_multi.
  node_eval.
  set (t := (falloff c * 2.0 - 0) / (1 - 0)).
  assert (Ht : t == falloff c * 2) by (unfold t; field).
  assert (H01 : 0 <= 1) by lra.
  destruct (Qclamp_cases 0 1 t H01) as [[? ->]|[(? & ? & ->)|(? & ? & ->)]];
  destruct (Qclamp_cases 0 1 (falloff c * 2) H01)
    as [[? ->]|[(? & ? & ->)|(? & ? & ->)]];
  try lra; rewrite ?Ht; try reflexivity.
Qed.

Lemma numOfJointsEffected_ge_1 (c : Control) :
  (1 <= joint_count)%Z -> 1 <= nje c.
Proof.
  intros HN. rewrite numOfJointsEffected_formula.
  assert (HNq : 1 <= inject_Z joint_count).
  { change 1 with (inject_Z 1). rewrite <- Zle_Qle. exact HN. }
  assert (H01 : 0 <= 1) by lra.
  destruct (Qclamp_cases 0 1 (falloff c * 2) H01)
    as [[? ->]|[(? & ? & ->)|(? & ? & ->)]]; nra.
Qed.

(** C2, amended: [numOfJointsEffected] is the remap of the doubled falloff,
    kept in [0, 1], onto [1, N]; for [N >= 1] it is monotonically
    non-decreasing in [falloff]; it equals [N] at [falloff = 0.5]; at
    [falloff = 0.1] it equals [1 + (N - 1) / 5], which is 1 only for
    [N = 1]. *)
Theorem numOfJointsEffected_mapping (c c1 c2 : Control) :
  nje c == 1 + Qclamp 0 1 (falloff c * 2) * (inject_Z joint_count - 1) /\
  ((1 <= joint_count)%Z -> falloff c1 <= falloff c2 -> nje c1 <= nje c2) /\
  (falloff c == 0.5 -> nje c == inject_Z joint_count) /\
  (falloff c == 0.1 -> nje c == 1 + (inject_Z joint_count - 1) / 5).
Proof.
  assert (H01 : 0 <= 1) by lra.
  split; [apply numOfJointsEffected_formula|]. split; [|split].
  - intros HN Hf. rewrite !numOfJointsEffected_formula.
    assert (HNq : 1 <= inject_Z joint_count).
    { change 1 with (inject_Z 1). rewrite <- Zle_Qle. exact HN. }
    assert (Hc : Qclamp 0 1 (falloff c1 * 2) <= Qclamp 0 1 (falloff c2 * 2)).
    { apply Qclamp_mono; lra. }
    nra.
  - intros Hf. rewrite numOfJointsEffected_formula.
    destruct (Qclamp_cases 0 1 (falloff c * 2) H01)
      as [[? ->]|[(? & ? & ->)|(? & ? & ->)]]; lra.
  - intros Hf. rewrite numOfJointsEffected_formula.
    destruct (Qclamp_cases 0 1 (falloff c * 2) H01)
      as [[? ->]|[(? & ? & ->)|(? & ? & ->)]]; try lra.
    rewrite Hf. field.
Qed.

End RigFacts.

(** C2, as stated, fails: over three joints a control at the minimum
    falloff 0.1 gets [numOfJointsEffected = 7/5], not 1. *)
Lemma numOfJointsEffected_at_min_falloff_not_1 :
  numOfJointsEffected (fun _ => 0) 3
    {| position := 0.5; falloff := 0.1; rotate := d3_zero |} == 7 # 5 /\
  ~ numOfJointsEffected (fun _ => 0) 3
    {| position := 0.5; falloff := 0.1; rotate := d3_zero |} == 1.
Proof. split; vm_compute; [reflexivity | discriminate]. Qed.

Lemma numOfJointsEffected_mapping_witness :
  numOfJointsEffected (fun _ => 0) 5 (new_control 3 1)
  <= numOfJointsEffected (fun _ => 0) 5
       {| position := 0.5; falloff := 0.5; rotate := d3_zero |} /\
  numOfJointsEffected (fun _ => 0) 5
    {| position := 0.5; falloff := 0.5; rotate := d3_zero |} == 5 /\
  numOfJointsEffected (fun _ => 0) 5
    {| position := 0.5; falloff := 0.1; rotate := d3_zero |} == 1 + (5 - 1) / 5.
Proof.
  pose proof (numOfJointsEffected_mapping (fun _ => 0) 5) as H.
  split; [|split].
  - apply (proj1 (proj2 (H (new_control 3 1) (new_control 3 1)
                           {| position := 0.5; falloff := 0.5; rotate := d3_zero |}))).
    + lia.
    + vm_compute. discriminate.
  - apply (proj1 (proj2 (proj2 (H {| position := 0.5; falloff := 0.5; rotate := d3_zero |}
                                  (new_control 3 1) (new_control 3 1))))).
    reflexivity.
  - apply (proj2 (proj2 (proj2 (H {| position := 0.5; falloff := 0.1; rotate := d3_zero |}
                                  (new_control 3 1) (new_control 3 1))))).
    reflexivity.
Defined.


(* ================================================================== *)
(** * Falloff network: theorems *)
(* ================================================================== *)

Section FalloffFacts.

Variable divide_by_zero : Q -> Q.
Variable joint_count : Z.

Local Abbreviation nje := (numOfJointsEffected divide_by_zero joint_count).
Local Abbreviation weight := (sideSelect divide_by_zero).
Local Abbreviation share := (perControlShare divide_by_zero joint_count).
Local Abbreviation ratios :=
  (fun c jp => md_output divide_by_zero (rotation_multiplier c jp)).

(** The rear ratio: distance of the joint from the rear bound over the
    distance of the control from it. *)
Lemma rear_ratio (c : Control) (jp : Q) :
  ~ falloff c == 0 ->
  chX (ratios c jp) == (jp - (position c - falloff c)) / falloff c.
Proof.
  intros Hf. unfold rotation_multiplier, jnt_pos_minus_falloff_pos,
    ctrl_pos_minus_falloff_pos, falloff_position, falloff_rear_position,
    falloff_front_position.
  node_eval. rewrite md_divide_nonzero.
  - field. exact Hf.
  - intros H. apply Hf. lra.
Qed.

(** The front ratio, likewise with the front bound. *)
Lemma front_ratio (c : Control) (jp : Q) :
  ~ falloff c == 0 ->
  chY (ratios c jp) == (jp - (position c + falloff c)) / - falloff c.
Proof.
  intros Hf. unfold rotation_multiplier, jnt_pos_minus_falloff_pos,
    ctrl_pos_minus_falloff_pos, falloff_position, falloff_rear_position,
    falloff_front_position.
  node_eval. rewrite md_divide_nonzero.
  - field. split; [exact Hf | intros H; apply Hf; lra].
  - intros H. apply Hf. lra.
Qed.

(** The side switch holds exactly when the joint is not beyond the
    control. *)
Lemma side_switch_holds (c : Control) (jp : Q) :
  cond_holds (side_switch_condition divide_by_zero c jp)
  = Qle_bool jp (position c).
Proof. reflexivity. Qed.

Lemma weight_rear (c : Control) (jp : Q) :
  jp <= position c -> weight c jp = chX (ratios c jp).
Proof.
  intros H. unfold sideSelect, cond_outColor.
  rewrite side_switch_holds.
  apply Qle_bool_iff in H. rewrite H. reflexivity.
Qed.

Lemma weight_front (c : Control) (jp : Q) :
  position c < jp -> weight c jp = chY (ratios c jp).
Proof.
  intros H. unfold sideSelect, cond_outColor.
  rewrite side_switch_holds.
  apply Qle_bool_false in H. rewrite H. reflexivity.
Qed.

(** C3: for a control at [p] with falloff [f > 0] the weight is 1 at
    [jointPosition = p], 0 at [p + f] and at [p - f], and linear in between:
    [1 - (p - j)/f] behind the control and [1 - (j - p)/f] in front of it,
    so it stays within [0, 1] there. *)
Theorem sideSelect_decay (c : Control) (jp : Q) :
  0 < falloff c ->
  (jp == position c -> weight c jp == 1) /\
  (jp == position c + falloff c -> weight c jp == 0) /\
  (jp == position c - falloff c -> weight c jp == 0) /\
  (position c - falloff c <= jp <= position c ->
     weight c jp == 1 - (position c - jp) / falloff c) /\
  (position c <= jp <= position c + falloff c ->
     weight c jp == 1 - (jp - position c) / falloff c) /\
  (position c - falloff c <= jp <= position c + falloff c ->
     0 <= weight c jp <= 1).
Proof.
  intros Hf.
  assert (Hnz : ~ falloff c == 0) by lra.
  assert (Hrear : jp <= position c ->
                  weight c jp == 1 - (position c - jp) / falloff c).
  { intros H. rewrite (weight_rear c jp H), rear_ratio by exact Hnz.
    field. exact Hnz. }
  assert (Hfront : position c < jp ->
                   weight c jp == 1 - (jp - position c) / falloff c).
  { intros H. rewrite (weight_front c jp H), front_ratio by exact Hnz.
    field. exact Hnz. }
  assert (Hself : jp == position c -> weight c jp == 1).
  { intros H. rewrite Hrear by lra. rewrite H. field. exact Hnz. }
  repeat split.
  - exact Hself.
  - intros H. rewrite Hfront by lra. rewrite H. field. exact Hnz.
  - intros H. rewrite Hrear by lra. rewrite H. field. exact Hnz.
  - intros [_ H]. apply Hrear. exact H.
  - intros [H _]. destruct (Qlt_le_dec (position c) jp) as [L|L].
    + apply Hfront. exact L.
    + rewrite Hself by lra. assert (E : jp == position c) by lra.
      rewrite E. field. exact Hnz.
  - destruct H as [Hlo Hhi].
    destruct (Qlt_le_dec (position c) jp) as [L|L].
    + rewrite Hfront by exact L.
      apply Qle_minus_iff.
      setoid_replace (1 - (jp - position c) / falloff c + - 0)
        with ((position c + falloff c - jp) / falloff c) by (field; exact Hnz).
      apply Qle_shift_div_l; [exact Hf | lra].
    + rewrite Hrear by exact L.
      apply Qle_minus_iff.
      setoid_replace (1 - (position c - jp) / falloff c + - 0)
        with ((jp - (position c - falloff c)) / falloff c) by (field; exact Hnz).
      apply Qle_shift_div_l; [exact Hf | lra].
  - destruct H as [Hlo Hhi].
    destruct (Qlt_le_dec (position c) jp) as [L|L].
    + rewrite Hfront by exact L.
      apply Qle_minus_iff.
      setoid_replace (1 + - (1 - (jp - position c) / falloff c))
        with ((jp - position c) / falloff c) by (field; exact Hnz).
      apply Qle_shift_div_l; [exact Hf | lra].
    + rewrite Hrear by exact L.
      apply Qle_minus_iff.
      setoid_replace (1 + - (1 - (position c - jp) / falloff c))
        with ((position c - jp) / falloff c) by (field; exact Hnz).
      apply Qle_shift_div_l; [exact Hf | lra].
Qed.

(** C4, on the code: the side switch is built with [operation = 3], which
    the host reads as "greater or equal".  When [jointPosition] equals the
    control's [position] the condition therefore holds, and the weight is
    taken from [colorIfTrueR], which is fed by [rotation_multiplier.outputX],
    the rear ratio; whatever sits on [colorIfFalseR] is not looked at. *)
Theorem side_switch_at_equality_selects_rear (c : Control) (jp : Q) :
  position c == jp ->
  cond_holds (side_switch_condition divide_by_zero c jp) = true /\
  weight c jp = chX (ratios c jp) /\
  (forall ifTrue ifFalse : double3,
     cond_outColor {| cond_operation := 3;
                      cond_firstTerm := position c;
                      cond_secondTerm := jp;
                      cond_colorIfTrue := ifTrue;
                      cond_colorIfFalse := ifFalse |} = ifTrue).
Proof.
  intros H.
  assert (Hle : Qle_bool jp (position c) = true) by (apply Qle_bool_iff; lra).
  split; [|split].
  - rewrite side_switch_holds. exact Hle.
  - apply weight_rear. lra.
  - intros ifTrue ifFalse. unfold cond_outColor, cond_holds. node_eval.
    rewrite Hle. reflexivity.
Qed.

(** C1, on the code: with at least one joint, the per-control share is, on
    every channel, the weight times the control's rotation times
    [1 / numOfJointsEffected] times 6; the constant written on
    [final_multiplier_multi.input2] is 6, not 2. *)
Theorem perControlShare_scale (c : Control) (jp : Q) :
  (1 <= joint_count)%Z ->
  d3_eq (share c jp)
    (D3 (weight c jp * chX (rotate c) * (1 / nje c) * 6)
        (weight c jp * chY (rotate c) * (1 / nje c) * 6)
        (weight c jp * chZ (rotate c) * (1 / nje c) * 6)).
Proof.
  intros HN.
  pose proof (numOfJointsEffected_ge_1 divide_by_zero joint_count c HN) as Hge.
  assert (Hnz : ~ nje c == 0) by lra.
  unfold perControlShare, final_multiplier_multi,
    num_jnts_times_ctrl_rot_multi, number_of_joints_division_multi,
    control_rotation_by_rot_multi, d3_eq.
  node_eval. rewrite (md_divide_nonzero _ _ _ Hnz).
  repeat split; ring.
Qed.

(** C5: what is driven onto the offset group's [rotate] is the per-control
    share when the weight is positive, and 0 on all three channels when the
    weight is zero or negative. *)
Theorem offset_group_rotate_gate (c : Control) (jp : Q) :
  (0 < weight c jp -> offset_group_rotate divide_by_zero joint_count c jp
                      = share c jp) /\
  (weight c jp <= 0 -> offset_group_rotate divide_by_zero joint_count c jp
                       = D3 0 0 0).
Proof.
  unfold offset_group_rotate, cond_outColor, cond_holds, final_condition.
  node_eval. split; intros H.
  - apply Qle_bool_false in H. rewrite H. reflexivity.
  - apply Qle_bool_iff in H. rewrite H. reflexivity.
Qed.

End FalloffFacts.

(** The scenario of five joints at 0, 0.25, 0.5, 0.75 and 1 and the middle
    control: full weight on the joint under the control, half weight on its
    neighbours, nothing on the two ends. *)
Example middle_control_on_five_joints :
  map (fun jp => Qred (chX (offset_group_rotate (fun _ => 0) 5 example_control jp)))
      [0; 0.25; 0.5; 0.75; 1]
  = [0; 0; 300 # 13; 0; 0].
Proof. vm_compute. reflexivity. Qed.

Example middle_control_weights :
  map (fun jp => Qred (sideSelect (fun _ => 0) example_control jp))
      [0.3; 0.4; 0.5; 0.6; 0.7]
  = [0; 1 # 2; 1; 1 # 2; 0].
Proof. vm_compute. reflexivity. Qed.

Lemma sideSelect_decay_witness :
  sideSelect (fun _ => 0) example_control 0.5 == 1 /\
  sideSelect (fun _ => 0) example_control 0.7 == 0 /\
  sideSelect (fun _ => 0) example_control 0.3 == 0 /\
  sideSelect (fun _ => 0) example_control 0.4 == 1 - (0.5 - 0.4) / 0.2 /\
  sideSelect (fun _ => 0) example_control 0.6 == 1 - (0.6 - 0.5) / 0.2 /\
  0 <= sideSelect (fun _ => 0) example_control 0.6 <= 1.
Proof.
  assert (Hf : 0 < falloff example_control) by reflexivity.
  split; [|split; [|split; [|split; [|split]]]].
  - apply (proj1 (sideSelect_decay (fun _ => 0) example_control 0.5 Hf)).
    reflexivity.
  - apply (proj1 (proj2 (sideSelect_decay (fun _ => 0) example_control 0.7 Hf))).
    reflexivity.
  - apply (proj1 (proj2 (proj2
             (sideSelect_decay (fun _ => 0) example_control 0.3 Hf)))).
    reflexivity.
  - apply (proj1 (proj2 (proj2 (proj2
             (sideSelect_decay (fun _ => 0) example_control 0.4 Hf))))).
    split; vm_compute; discriminate.
  - apply (proj1 (proj2 (proj2 (proj2 (proj2
             (sideSelect_decay (fun _ => 0) example_control 0.6 Hf)))))).
    split; vm_compute; discriminate.
  - apply (proj2 (proj2 (proj2 (proj2 (proj2
             (sideSelect_decay (fun _ => 0) example_control 0.6 Hf)))))).
    split; vm_compute; discriminate.
Defined.

Lemma side_switch_at_equality_selects_rear_witness :
  cond_holds (side_switch_condition (fun _ => 0) example_control 0.5) = true /\
  sideSelect (fun _ => 0) example_control 0.5
  = chX (md_output (fun _ => 0) (rotation_multiplier example_control 0.5)).
Proof.
  assert (H : position example_control == 0.5) by reflexivity.
  destruct (side_switch_at_equality_selects_rear (fun _ => 0) example_control
              0.5 H) as (Hholds & Hsel & _).
  split; [exact Hholds | exact Hsel].
Defined.

Lemma perControlShare_scale_witness :
  chX (perControlShare (fun _ => 0) 5 example_control 0.5) == 300 # 13 /\
  ~ chX (perControlShare (fun _ => 0) 5 example_control 0.5)
    == sideSelect (fun _ => 0) example_control 0.5
       * chX (rotate example_control)
       * (1 / numOfJointsEffected (fun _ => 0) 5 example_control) * 2.
Proof.
  assert (HN : (1 <= 5)%Z) by lia.
  destruct (perControlShare_scale (fun _ => 0) 5 example_control 0.5 HN)
    as (HX & _ & _).
  split.
  - rewrite HX. vm_compute. reflexivity.
  - rewrite HX. vm_compute. discriminate.
Defined.

Lemma offset_group_rotate_gate_witness :
  offset_group_rotate (fun _ => 0) 5 example_control 0.5
  = perControlShare (fun _ => 0) 5 example_control 0.5 /\
  offset_group_rotate (fun _ => 0) 5 example_control 0.9 = D3 0 0 0.
Proof.
  split.
  - apply (proj1 (offset_group_rotate_gate (fun _ => 0) 5 example_control 0.5)).
    vm_compute. reflexivity.
  - apply (proj2 (offset_group_rotate_gate (fun _ => 0) 5 example_control 0.9)).
    vm_compute. discriminate.
Defined.


(* ================================================================== *)
(** * Joint position sampling: theorems *)
(* ================================================================== *)

Lemma py_truediv_nonzero (a b : Q) :
  ~ b == 0 -> py_truediv a b = Value (a / b).
Proof.
  intros H. unfold py_truediv.
  destruct (Qeq_bool b 0) eqn:E; [|reflexivity].
  apply Qeq_bool_iff in E. contradiction.
Qed.

Lemma py_truediv_zero (a b : Q) :
  b == 0 -> py_truediv a b = Exception "ZeroDivisionError".
Proof.
  intros H. unfold py_truediv.
  apply Qeq_bool_iff in H. rewrite H. reflexivity.
Qed.

(** C10: each [jointPosition] is the joint's [parameterV] divided by
    [max_v_range], and nothing guards the divisor: when it is zero the first
    joint already raises [ZeroDivisionError].  When it is not zero, the
    division succeeds for every joint and the loop yields all the
    positions. *)
Theorem joint_positions_defined (max_v_range : Q) (parameterVs : list Q) :
  (~ max_v_range == 0 ->
     joint_positions max_v_range parameterVs
     = Value (map (fun v => v / max_v_range) parameterVs) /\
     forall v, In v parameterVs ->
       normalized_joint_v_position v max_v_range = Value (v / max_v_range)) /\
  (max_v_range == 0 -> parameterVs <> [] ->
     joint_positions max_v_range parameterVs = Exception "ZeroDivisionError").
Proof.
  split.
  - intros H. split.
    + induction parameterVs as [|v rest IH]; [reflexivity|].
      cbn [joint_positions map]. unfold normalized_joint_v_position.
      rewrite (py_truediv_nonzero _ _ H), IH. reflexivity.
    + intros v _. apply py_truediv_nonzero. exact H.
  - intros H Hne. destruct parameterVs as [|v rest]; [contradiction|].
    cbn [joint_positions]. unfold normalized_joint_v_position.
    rewrite (py_truediv_zero _ _ H). reflexivity.
Qed.

Lemma joint_positions_defined_witness :
  joint_positions 2 [0; 0.5; 1; 1.5; 2]
  = Value (map (fun v => v / 2) [0; 0.5; 1; 1.5; 2]) /\
  joint_positions 0 [0; 0.5; 1] = Exception "ZeroDivisionError".
Proof.
  split.
  - apply (proj1 (joint_positions_defined 2 [0; 0.5; 1; 1.5; 2])).
    vm_compute. discriminate.
  - apply (proj2 (joint_positions_defined 0 [0; 0.5; 1])).
    + reflexivity.
    + discriminate.
Defined.

(* ================================================================== *)
(** * Entry of the build: theorems *)
(* ================================================================== *)

Section EntryFacts.

Variable cfg : NamingConfig.
Variable copy_name : string -> string.
Variable rig_construction : Z -> list string -> string -> Cmd unit.

Local Abbreviation build := (build_variable_fk cfg copy_name rig_construction).
Local Abbreviation surface_of := (create_nurbs_surface cfg copy_name).

(** The joints among the selected nodes, as [cmds.ls] returns them. *)
Local Abbreviation selected_joints :=
  (fun s => filter (fun n => cmds.is_type "joint" n s) (scene_selection s)).

Lemma nodeType_of_joint (n : string) (s : Scene) :
  cmds.is_type "joint" n s = true ->
  exists t, cmds.nodeType n s = Returned t s /\ String.eqb t "joint" = true.
Proof.
  unfold cmds.is_type, cmds.nodeType.
  destruct (cmds.lookup_type n (scene_nodes s)) as [t|]; [|discriminate].
  intros H. now exists t.
Qed.

(** The type scan reads the scene and never edits it. *)
Lemma any_not_joint_reads (joints : list string) (s : Scene) :
  (exists b, any_not_joint joints s = Returned b s) \/
  (exists msg, any_not_joint joints s = Raised msg s).
Proof.
  induction joints as [|j rest IH]; [left; now exists false|].
  cbn [any_not_joint]. unfold bind, cmds.nodeType.
  destruct (cmds.lookup_type j (scene_nodes s)) as [t|].
  - destruct (negb (String.eqb t "joint")); [left; now exists true | exact IH].
  - right. now eexists.
Qed.

Lemma any_not_joint_all_joints (joints : list string) (s : Scene) :
  (forall j, In j joints -> cmds.is_type "joint" j s = true) ->
  any_not_joint joints s = Returned false s.
Proof.
  induction joints as [|j rest IH]; intros H; [reflexivity|].
  cbn [any_not_joint]. unfold bind.
  destruct (nodeType_of_joint j s (H j (or_introl eq_refl))) as (t & -> & Ht).
  rewrite Ht. cbn [negb]. apply IH. intros k Hk. apply H. now right.
Qed.

Lemma any_not_joint_finds (joints : list string) (s : Scene) (j : string) :
  In j joints -> cmds.is_type "joint" j s = false ->
  any_not_joint joints s <> Returned false s.
Proof.
  induction joints as [|k rest IH]; intros Hin Hj; [contradiction|].
  cbn [any_not_joint]. unfold bind, cmds.nodeType.
  destruct (cmds.lookup_type k (scene_nodes s)) as [t|] eqn:E; [|discriminate].
  destruct (String.eqb t "joint") eqn:Et; cbn [negb]; [|discriminate].
  destruct Hin as [->|Hin].
  - unfold cmds.is_type in Hj. rewrite E, Et in Hj. discriminate.
  - apply IH; assumption.
Qed.

(** With three or more joints and nothing else in the list both guards
    pass. *)
Lemma check_joints_passes (joints : list string) (s : Scene) :
  (3 <= List.length joints)%nat ->
  (forall j, In j joints -> cmds.is_type "joint" j s = true) ->
  check_joints joints s = Returned tt s.
Proof.
  intros Hlen Hall. unfold check_joints.
  apply Nat.ltb_ge in Hlen. rewrite Hlen.
  unfold bind at 1. cbn [ret].
  unfold bind. rewrite (any_not_joint_all_joints joints s Hall).
  reflexivity.
Qed.

Lemma check_joints_short (joints : list string) (s : Scene) :
  (List.length joints < 3)%nat ->
  check_joints joints s = Raised "Please select at least 3 input joints" s.
Proof.
  intros Hl. unfold check_joints.
  apply Nat.ltb_lt in Hl. rewrite Hl. reflexivity.
Qed.

Lemma check_joints_rejects (joints : list string) (s : Scene) (j : string) :
  (3 <= List.length joints)%nat ->
  In j joints -> cmds.is_type "joint" j s = false ->
  exists msg, check_joints joints s = Raised msg s.
Proof.
  intros Hlen Hin Hj. unfold check_joints.
  apply Nat.ltb_ge in Hlen. rewrite Hlen.
  unfold bind at 1. cbn [ret]. unfold bind.
  pose proof (any_not_joint_finds joints s j Hin Hj) as Hfind.
  destruct (any_not_joint_reads joints s) as [[b Hb]|[msg Hm]].
  - rewrite Hb. destruct b; [|congruence]. eexists. reflexivity.
  - rewrite Hm. now exists msg.
Qed.

(** A failed check is the failure of [create_nurbs_surface], with the scene
    the check left. *)
Lemma create_nurbs_surface_raises (joints : list string) (s : Scene)
    (msg : string) :
  check_joints joints s = Raised msg s ->
  surface_of joints s = Raised msg s.
Proof.
  intros H. unfold create_nurbs_surface. unfold bind at 1.
  rewrite H. reflexivity.
Qed.

(** The build is the surface and the rig over the selected joints, unless
    there is none. *)
Lemma build_on_selected_joints (number_of_controls : Z) (s : Scene) :
  selected_joints s <> [] ->
  build number_of_controls s
  = bind (surface_of (selected_joints s))
      (rig_construction number_of_controls (selected_joints s)) s.
Proof.
  intros Hne. unfold build_variable_fk.
  unfold bind at 1. unfold cmds.ls_selection.
  destruct (selected_joints s) as [|j rest] eqn:E; [contradiction|].
  unfold bind at 1. cbn [ret]. reflexivity.
Qed.

(** C6, amended: the build first narrows the selection to its joints.  If no
    joint is selected, or fewer than three are, the failure is raised at
    once and the scene is left as it was.  Nodes that are not joints are
    dropped from the selection rather than reported: with three or more
    joints selected both guards pass and the build goes on to the surface and
    the rig over the joints alone.  [create_nurbs_surface] itself, handed a
    list that is too short or that names a node that is not a joint, raises
    before it edits the scene. *)
Theorem build_variable_fk_preconditions
    (number_of_controls : Z) (s : Scene) (joints : list string) :
  (selected_joints s = [] ->
     build number_of_controls s = Raised "Nothing selected" s) /\
  (selected_joints s <> [] -> (List.length (selected_joints s) < 3)%nat ->
     build number_of_controls s
     = Raised "Please select at least 3 input joints" s) /\
  ((3 <= List.length (selected_joints s))%nat ->
     check_joints (selected_joints s) s = Returned tt s /\
     build number_of_controls s
     = bind (surface_of (selected_joints s))
         (rig_construction number_of_controls (selected_joints s)) s) /\
  ((List.length joints < 3)%nat ->
     surface_of joints s = Raised "Please select at least 3 input joints" s) /\
  ((3 <= List.length joints)%nat ->
   (exists j, In j joints /\ cmds.is_type "joint" j s = false) ->
     exists msg, surface_of joints s = Raised msg s).
Proof.
  split; [|split; [|split; [|split]]].
  - intros Hsel. unfold build_variable_fk, bind, cmds.ls_selection.
    rewrite Hsel. reflexivity.
  - intros Hne Hlen. rewrite (build_on_selected_joints _ _ Hne).
    unfold bind.
    rewrite (create_nurbs_surface_raises _ _ _ (check_joints_short _ s Hlen)).
    reflexivity.
  - intros Hlen. split.
    + apply check_joints_passes; [exact Hlen|].
      intros j Hj. apply filter_In in Hj. apply Hj.
    + apply build_on_selected_joints.
      intros E. rewrite E in Hlen. simpl in Hlen. lia.
  - intros Hlen. apply create_nurbs_surface_raises, check_joints_short.
    exact Hlen.
  - intros Hlen (j & Hin & Hj).
    destruct (check_joints_rejects joints s j Hlen Hin Hj) as [msg Hm].
    exists msg. apply create_nurbs_surface_raises. exact Hm.
Qed.

End EntryFacts.

(** C6, as stated, fails: with four joints and a polygon cube selected
    nothing is reported; the cube is dropped, the surface is created from
    the four joints, and the build returns with an edited scene. *)
Lemma build_variable_fk_ignores_non_joints :
  cmds.is_type "joint" "pCube1" mixed_selection_scene = false /\
  In "pCube1"%string (scene_selection mixed_selection_scene) /\
  build_variable_fk module_config (fun n => n ++ "1")%string
    (fun _ _ _ => ret tt) 3 mixed_selection_scene
  = Returned tt
      {| scene_nodes :=
           scene_nodes mixed_selection_scene
           ++ [("surface_trunk_var_fk", "transform")]%string;
         scene_selection := scene_selection mixed_selection_scene |}.
Proof.
  split; [reflexivity|]. split; [simpl; tauto | reflexivity].
Qed.

Lemma build_variable_fk_preconditions_witness :
  build_variable_fk module_config (fun n => n ++ "1")%string
    (fun _ _ _ => ret tt) 3
    {| scene_nodes := [("pCube1", "transform")]%string;
       scene_selection := ["pCube1"]%string |}
  = Raised "Nothing selected"
      {| scene_nodes := [("pCube1", "transform")]%string;
         scene_selection := ["pCube1"]%string |} /\
  build_variable_fk module_config (fun n => n ++ "1")%string
    (fun _ _ _ => ret tt) 3
    {| scene_nodes := [("joint1", "joint"); ("joint2", "joint")]%string;
       scene_selection := ["joint1"; "joint2"]%string |}
  = Raised "Please select at least 3 input joints"
      {| scene_nodes := [("joint1", "joint"); ("joint2", "joint")]%string;
         scene_selection := ["joint1"; "joint2"]%string |} /\
  (exists msg,
     create_nurbs_surface module_config (fun n => n ++ "1")%string
       (scene_selection mixed_selection_scene) mixed_selection_scene
     = Raised msg mixed_selection_scene).
Proof.
  split; [|split].
  - apply (proj1 (build_variable_fk_preconditions module_config
             (fun n => n ++ "1")%string (fun _ _ _ => ret tt) 3 _ [])).
    reflexivity.
  - apply (proj1 (proj2 (build_variable_fk_preconditions module_config
             (fun n => n ++ "1")%string (fun _ _ _ => ret tt) 3 _ []))).
    + discriminate.
    + simpl. lia.
  - apply (proj2 (proj2 (proj2 (proj2
             (build_variable_fk_preconditions module_config
                (fun n => n ++ "1")%string (fun _ _ _ => ret tt) 3
                mixed_selection_scene
                (scene_selection mixed_selection_scene)))))).
    + simpl. lia.
    + exists "pCube1"%string. split; [simpl; tauto | reflexivity].
Defined.

(* ================================================================== *)
(** * Further properties of the falloff network *)
(* ================================================================== *)

Section NetworkMore.

Variable divide_by_zero : Q -> Q.
Variable joint_count : Z.

Local Abbreviation nje := (numOfJointsEffected divide_by_zero joint_count).
Local Abbreviation weight := (sideSelect divide_by_zero).
Local Abbreviation share := (perControlShare divide_by_zero joint_count).
Local Abbreviation driven := (offset_group_rotate divide_by_zero joint_count).

Lemma weight_behind (c : Control) (jp : Q) :
  0 < falloff c -> jp <= position c ->
  weight c jp == 1 - (position c - jp) / falloff c.
Proof.
  intros Hf H. assert (Hnz : ~ falloff c == 0) by lra.
  rewrite (weight_rear divide_by_zero c jp H), rear_ratio by exact Hnz.
  field. exact Hnz.
Qed.

Lemma weight_ahead (c : Control) (jp : Q) :
  0 < falloff c -> position c < jp ->
  weight c jp == 1 - (jp - position c) / falloff c.
Proof.
  intros Hf H. assert (Hnz : ~ falloff c == 0) by lra.
  rewrite (weight_front divide_by_zero c jp H), front_ratio by exact Hnz.
  field. exact Hnz.
Qed.

Lemma weight_by_distance (c : Control) (jp : Q) :
  0 < falloff c ->
  weight c jp == 1 - Qabs (jp - position c) / falloff c.
Proof.
  intros Hf. destruct (Qlt_le_dec (position c) jp) as [L|L].
  - rewrite (weight_ahead c jp Hf L), Qabs_pos by lra. reflexivity.
  - rewrite (weight_behind c jp Hf L), Qabs_neg by lra.
    setoid_replace (- (jp - position c)) with (position c - jp) by ring.
    reflexivity.
Qed.

(** X1: for a control with a positive falloff the weight of a joint is
    [1 - |jointPosition - position| / falloff] wherever the joint lies, also
    outside the falloff zone, where it is negative. *)
Theorem sideSelect_closed_form (c : Control) (jp : Q) :
  0 < falloff c ->
  weight c jp == 1 - Qabs (jp - position c) / falloff c /\
  (falloff c < Qabs (jp - position c) -> weight c jp < 0).
Proof.
  intros Hf. split; [apply weight_by_distance; exact Hf|].
  intros Hfar. rewrite weight_by_distance by exact Hf.
  assert (1 < Qabs (jp - position c) / falloff c).
  { apply Qlt_shift_div_l; [exact Hf | lra]. }
  lra.
Qed.

Lemma Qdiv_nonneg (a b : Q) : 0 <= a -> 0 < b -> 0 <= a / b.
Proof. intros Ha Hb. apply Qle_shift_div_l; [exact Hb | lra]. Qed.

Lemma Qdiv_pos (a b : Q) : 0 < a -> 0 < b -> 0 < a / b.
Proof. intros Ha Hb. apply Qlt_shift_div_l; [exact Hb | lra]. Qed.

Lemma Qdiv_lt_1 (a b : Q) : 0 < b -> a < b -> a / b < 1.
Proof. intros Hb Hab. apply Qlt_shift_div_r; [exact Hb | lra]. Qed.

Lemma Qdiv_ge_1 (a b : Q) : 0 < b -> b <= a -> 1 <= a / b.
Proof. intros Hb Hab. apply Qle_shift_div_l; [exact Hb | lra]. Qed.

(** X2: with a positive falloff the weight never exceeds 1, it is 1 only for
    a joint exactly at the control, and it is the same at equal distances
    behind and in front of the control. *)
Theorem sideSelect_peak_and_symmetry (c : Control) (jp d : Q) :
  0 < falloff c ->
  weight c jp <= 1 /\
  (weight c jp == 1 <-> jp == position c) /\
  weight c (position c + d) == weight c (position c - d).
Proof.
  intros Hf. assert (Hnz : ~ falloff c == 0) by lra.
  pose proof (weight_by_distance c jp Hf) as Hw.
  pose proof (Qabs_nonneg (jp - position c)) as Habs.
  pose proof (Qdiv_nonneg _ _ Habs Hf) as Hq.
  split; [|split].
  - lra.
  - split; intros H.
    + destruct (Qlt_le_dec (position c) jp) as [L|L].
      * pose proof (weight_ahead c jp Hf L) as Ha.
        assert (0 < (jp - position c) / falloff c)
          by (apply Qdiv_pos; lra).
        lra.
      * destruct (Qlt_le_dec jp (position c)) as [L'|L']; [|lra].
        pose proof (weight_behind c jp Hf L) as Hb.
        assert (0 < (position c - jp) / falloff c)
          by (apply Qdiv_pos; lra).
        lra.
    + rewrite weight_behind by lra.
      setoid_replace (position c - jp) with 0 by lra. field. exact Hnz.
  - rewrite !weight_by_distance by exact Hf.
    setoid_replace (position c + d - position c) with d by ring.
    setoid_replace (position c - d - position c) with (- d) by ring.
    rewrite Qabs_opp. reflexivity.
Qed.

Lemma final_condition_holds (c : Control) (jp : Q) :
  cond_holds (final_condition divide_by_zero joint_count c jp)
  = negb (Qle_bool (weight c jp) 0).
Proof. reflexivity. Qed.

Lemma driven_when_positive (c : Control) (jp : Q) :
  0 < weight c jp -> driven c jp = share c jp.
Proof.
  intros H. unfold offset_group_rotate, cond_outColor.
  rewrite final_condition_holds.
  apply Qle_bool_false in H. rewrite H. reflexivity.
Qed.

Lemma driven_when_not_positive (c : Control) (jp : Q) :
  weight c jp <= 0 -> driven c jp = D3 0 0 0.
Proof.
  intros H. unfold offset_group_rotate, cond_outColor.
  rewrite final_condition_holds.
  apply Qle_bool_iff in H. rewrite H. reflexivity.
Qed.

(** X3: with a positive falloff, a joint at or beyond either end of the
    falloff zone gets exactly zero rotation from the control, and a joint
    strictly inside the zone gets the per-control share, with a weight in
    (0, 1]. *)
Theorem offset_group_rotate_zone (c : Control) (jp : Q) :
  0 < falloff c ->
  (jp <= position c - falloff c \/ position c + falloff c <= jp ->
     driven c jp = D3 0 0 0) /\
  (position c - falloff c < jp < position c + falloff c ->
     driven c jp = share c jp /\ 0 < weight c jp <= 1).
Proof.
  intros Hf. split.
  - intros H. apply driven_when_not_positive.
    destruct H as [H|H].
    + rewrite weight_behind by lra.
      assert (1 <= (position c - jp) / falloff c)
        by (apply Qdiv_ge_1; lra).
      lra.
    + rewrite weight_ahead by lra.
      assert (1 <= (jp - position c) / falloff c)
        by (apply Qdiv_ge_1; lra).
      lra.
  - intros [Hlo Hhi].
    assert (Hpos : 0 < weight c jp /\ weight c jp <= 1).
    { destruct (Qlt_le_dec (position c) jp) as [L|L].
      - rewrite weight_ahead by lra.
        assert ((jp - position c) / falloff c < 1)
          by (apply Qdiv_lt_1; lra).
        assert (0 < (jp - position c) / falloff c)
          by (apply Qdiv_pos; lra).
        lra.
      - rewrite weight_behind by lra.
        assert ((position c - jp) / falloff c < 1)
          by (apply Qdiv_lt_1; lra).
        assert (0 <= (position c - jp) / falloff c)
          by (apply Qdiv_nonneg; lra).
        lra. }
    split; [|exact Hpos].
    apply driven_when_positive. apply Hpos.
Qed.

(** X4: over at least one joint, [numOfJointsEffected] stays between 1 and
    the number of joints whatever the falloff is, so the division by it
    never meets a zero divisor. *)
Theorem numOfJointsEffected_range (c : Control) :
  (1 <= joint_count)%Z ->
  1 <= nje c <= inject_Z joint_count /\ ~ nje c == 0.
Proof.
  intros HN.
  pose proof (numOfJointsEffected_ge_1 divide_by_zero joint_count c HN) as Hge.
  split; [split; [exact Hge|] | lra].
  rewrite numOfJointsEffected_formula.
  assert (HNq : 1 <= inject_Z joint_count).
  { change 1 with (inject_Z 1). rewrite <- Zle_Qle. exact HN. }
  assert (H01 : 0 <= 1) by lra.
  destruct (Qclamp_cases 0 1 (falloff c * 2) H01)
    as [[? ->]|[(? & ? & ->)|(? & ? & ->)]]; nra.
Qed.

(** X5: a control at rest turns no joint: when its [rotate] is zero on a
    channel, so is what the network drives onto the offset group, for every
    joint position, every falloff and every joint count. *)
Theorem offset_group_rotate_at_rest (c : Control) (jp : Q) :
  d3_eq (rotate c) (D3 0 0 0) ->
  d3_eq (driven c jp) (D3 0 0 0).
Proof.
  intros (HX & HY & HZ). simpl in HX, HY, HZ.
  unfold offset_group_rotate, cond_outColor.
  destruct (cond_holds _).
  - unfold final_condition, perControlShare, final_multiplier_multi,
      num_jnts_times_ctrl_rot_multi, control_rotation_by_rot_multi, d3_eq.
    node_eval. rewrite HX, HY, HZ. repeat split; ring.
  - unfold final_condition, d3_eq. node_eval. repeat split; reflexivity.
Qed.

(** X6: scaling the control's rotation by a factor scales what is driven
    onto the offset group by the same factor: the weight and the gate do not
    look at the rotation. *)
Theorem offset_group_rotate_scales (c : Control) (jp k : Q) :
  let scaled :=
    {| position := position c;
       falloff := falloff c;
       rotate := D3 (k * chX (rotate c)) (k * chY (rotate c))
                    (k * chZ (rotate c)) |} in
  d3_eq (driven scaled jp)
        (D3 (k * chX (driven c jp)) (k * chY (driven c jp))
            (k * chZ (driven c jp))).
Proof.
  intros scaled.
  unfold offset_group_rotate, cond_outColor.
  change (cond_holds (final_condition divide_by_zero joint_count scaled jp))
    with (cond_holds (final_condition divide_by_zero joint_count c jp)).
  destruct (cond_holds _).
  - unfold final_condition, perControlShare, final_multiplier_multi,
      num_jnts_times_ctrl_rot_multi, control_rotation_by_rot_multi, d3_eq.
    node_eval.
    change (sideSelect divide_by_zero scaled jp) with (weight c jp).
    change (number_of_joints_division_multi divide_by_zero joint_count scaled)
      with (number_of_joints_division_multi divide_by_zero joint_count c).
    unfold scaled. node_eval. repeat split; ring.
  - unfold final_condition, d3_eq. node_eval. repeat split; ring.
Qed.

End NetworkMore.

(** X7: for a control whose attributes are within the limits the build puts
    on them, over at least one joint, no division of the network meets a
    zero divisor: the rotation driven onto the offset group is the same
    whatever the host would answer for a division by zero. *)
Theorem offset_group_rotate_never_divides_by_zero
    (dz1 dz2 : Q -> Q) (joint_count : Z) (c : Control) (jp : Q) :
  within_limits c -> (1 <= joint_count)%Z ->
  offset_group_rotate dz1 joint_count c jp
  = offset_group_rotate dz2 joint_count c jp.
Proof.
  intros (_ & Hf) HN.
  assert (Hnz : ~ falloff c == 0) by lra.
  assert (Hw : sideSelect dz1 c jp = sideSelect dz2 c jp).
  { unfold sideSelect, cond_outColor.
    rewrite !side_switch_holds.
    unfold side_switch_condition, rotation_multiplier,
      jnt_pos_minus_falloff_pos, ctrl_pos_minus_falloff_pos, falloff_position,
      falloff_rear_position, falloff_front_position.
    node_eval.
    rewrite !md_divide_nonzero; [reflexivity | | | | ];
      intros H; apply Hnz; lra. }
  pose proof (numOfJointsEffected_ge_1 dz1 joint_count c HN) as Hge.
  assert (Hn : ~ numOfJointsEffected dz1 joint_count c == 0) by lra.
  unfold offset_group_rotate, cond_outColor, cond_holds, final_condition,
    perControlShare, final_multiplier_multi, num_jnts_times_ctrl_rot_multi,
    control_rotation_by_rot_multi, number_of_joints_division_multi.
  node_eval. rewrite Hw.
  change (numOfJointsEffected dz2 joint_count c)
    with (numOfJointsEffected dz1 joint_count c).
  rewrite !(md_divide_nonzero _ _ _ Hn). reflexivity.
Qed.

(** X8: every control the loop creates has its [position] and [falloff]
    defaults inside the limits the loop declares for these attributes. *)
Theorem new_control_within_limits (number_of_controls value : Z) :
  (1 <= value <= number_of_controls)%Z ->
  within_limits (new_control number_of_controls value).
Proof.
  intros H. unfold within_limits, new_control. node_eval.
  pose proof (current_value_inside number_of_controls value H) as [H0 H1].
  repeat split; try lra; vm_compute; discriminate.
Qed.

(** X9: the controls are spread evenly and symmetrically: the gap between
    two controls created one after the other is [1/(n+1)], as is the gap
    from 0 to the first and from the last to 1, and the [k]-th position
    from the start and the [k]-th from the end add up to 1. *)
Theorem control_positions_even (n k : Z) :
  (1 <= k <= n)%Z ->
  ((k < n)%Z ->
     position (new_control n (k + 1)) - position (new_control n k)
     == 1 / inject_Z (n + 1)) /\
  position (new_control n 1) == 1 / inject_Z (n + 1) /\
  1 - position (new_control n n) == 1 / inject_Z (n + 1) /\
  position (new_control n k) + position (new_control n (n + 1 - k)) == 1.
Proof.
  intros H. unfold new_control. node_eval. unfold current_value.
  assert (Hd : ~ inject_Z (n + 1) == 0).
  { change 0 with (inject_Z 0). rewrite inject_Z_injective. lia. }
  unfold Z.sub. rewrite ?inject_Z_plus, ?inject_Z_opp.
  rewrite inject_Z_plus in Hd.
  change (inject_Z 1) with 1 in *.
  repeat split; try intros _; field; exact Hd.
Qed.



(* ================================================================== *)
(** * Further facts about the string primitives *)
(* ================================================================== *)

Module PyStrMore.
Import PyStr PyStrFacts.

Open Scope string_scope.

Local Abbreviation strip := (replace "___" "").

Lemma append_nil_r (s : string) : s ++ "" = s.
Proof. induction s as [|c s IH]; simpl; [reflexivity | now rewrite IH]. Qed.

Lemma append_inv_head (p a b : string) : p ++ a = p ++ b -> a = b.
Proof.
  induction p as [|c p IH]; simpl; intros H; [exact H|].
  injection H as H. apply IH. exact H.
Qed.

(** Replacing a single character: one step of the scan. *)
Lemma replace_char_cons (a : ascii) (new : string) (c : ascii) (t : string) :
  replace (String a "") new (String c t)
  = if Ascii.eqb a c
    then new ++ replace (String a "") new t
    else String c (replace (String a "") new t).
Proof.
  unfold replace. cbn [replace_scan]. rewrite starts_with_cons.
  cbn [starts_with String.length Nat.sub]. rewrite andb_true_r.
  destruct (Ascii.eqb a c); reflexivity.
Qed.

(** Replacing a single character works piece by piece. *)
Lemma replace_char_app (a : ascii) (new x y : string) :
  replace (String a "") new (x ++ y)
  = replace (String a "") new x ++ replace (String a "") new y.
Proof.
  induction x as [|c x IH]; [reflexivity|].
  change (String c x ++ y) with (String c (x ++ y)).
  rewrite !replace_char_cons, IH.
  destruct (Ascii.eqb a c); [now rewrite append_assoc | reflexivity].
Qed.

(** A string in which the pattern does not occur is returned as it is. *)
Lemma replace_absent (a : ascii) (old' new s : string) :
  contains (String a old') s = false ->
  replace (String a old') new s = s.
Proof.
  unfold replace. induction s as [|c t IH]; intros H; [reflexivity|].
  apply contains_cons_false in H as [Hhd Htl].
  cbn [replace_scan]. rewrite Hhd. f_equal. apply IH. exact Htl.
Qed.

Lemma contains_char_cons (a c : ascii) (t : string) :
  contains (String a "") (String c t)
  = Ascii.eqb a c || contains (String a "") t.
Proof.
  cbn [contains]. rewrite starts_with_cons. cbn [starts_with].
  now rewrite andb_true_r.
Qed.

Lemma contains_char_app (a : ascii) (x y : string) :
  contains (String a "") (x ++ y)
  = contains (String a "") x || contains (String a "") y.
Proof.
  induction x as [|c x IH].
  - simpl. destruct y; reflexivity.
  - change (String c x ++ y) with (String c (x ++ y)).
    rewrite !contains_char_cons, IH. now rewrite orb_assoc.
Qed.

(** Removing the underscores one by one gives the same text before and
    after the scan for runs of three. *)
Lemma strip_keeps_letters (s : string) :
  replace "_" "" (strip s) = replace "_" "" s.
Proof.
  remember (String.length s) as n eqn:Hn.
  revert s Hn. induction n as [n IH] using lt_wf_ind. intros s Hn.
  destruct (starts_with "___" s) eqn:E.
  - destruct (starts_with_triple _ E) as [u ->].
    rewrite strip_match.
    rewrite (IH (String.length u)); [reflexivity | subst n; simpl; lia
                                    | reflexivity].
  - destruct s as [|c t]; [reflexivity|].
    rewrite (strip_emit _ _ E), !replace_char_cons.
    rewrite (IH (String.length t)); [reflexivity | subst n; simpl; lia
                                    | reflexivity].
Qed.

Lemma strip_length (s : string) :
  (String.length (strip s) <= String.length s)%nat.
Proof.
  remember (String.length s) as n eqn:Hn.
  revert s Hn. induction n as [n IH] using lt_wf_ind. intros s Hn.
  destruct (starts_with "___" s) eqn:E.
  - destruct (starts_with_triple _ E) as [u ->].
    rewrite strip_match.
    assert (Hlt : (String.length u < n)%nat) by (subst n; simpl; lia).
    pose proof (IH _ Hlt u eq_refl) as H. lia.
  - destruct s as [|c t]; [subst n; simpl; lia|].
    rewrite (strip_emit _ _ E).
    assert (Hlt : (String.length t < n)%nat) by (subst n; simpl; lia).
    pose proof (IH _ Hlt t eq_refl) as H.
    cbn [String.length]. subst n. cbn [String.length]. lia.
Qed.

(** A prefix test for three underscores does not reach beyond a character
    that is not an underscore. *)
Lemma starts_with_triple_stops (a : string) (c : ascii) (b : string) :
  Ascii.eqb "_" c = false ->
  starts_with "___" (a ++ String c b) = starts_with "___" a.
Proof.
  intros Hc.
  destruct a as [|x [|y [|z a]]]; simpl append;
    rewrite ?starts_with_cons, ?Hc; cbn [starts_with];
    rewrite ?andb_false_r, ?andb_true_r; reflexivity.
Qed.

Lemma contains_triple_nil : contains "___" "" = false.
Proof. reflexivity. Qed.

(** A run of three underscores lies on one side of a character that is not
    an underscore. *)
Lemma contains_triple_split (a : string) (c : ascii) (b : string) :
  Ascii.eqb "_" c = false ->
  contains "___" (a ++ String c b) = contains "___" a || contains "___" b.
Proof.
  intros Hc. induction a as [|x a IH].
  - simpl append. cbn [contains]. rewrite starts_with_cons, Hc. reflexivity.
  - change (String x a ++ String c b) with (String x (a ++ String c b)).
    cbn [contains].
    change (String x (a ++ String c b)) with (String x a ++ String c b).
    rewrite (starts_with_triple_stops (String x a) c b Hc), IH.
    now rewrite orb_assoc.
Qed.

(** The same across a non-empty piece without any underscore. *)
Lemma contains_triple_through (a d b : string) :
  contains "_" d = false -> d <> "" ->
  contains "___" (a ++ d ++ b) = contains "___" a || contains "___" b.
Proof.
  revert a. induction d as [|c d IH]; intros a Hd Hne; [contradiction|].
  rewrite contains_char_cons in Hd. apply orb_false_iff in Hd as [Hc Hd].
  change (String c d ++ b) with (String c (d ++ b)).
  rewrite (contains_triple_split a c (d ++ b) Hc).
  destruct d as [|c' d'].
  - reflexivity.
  - f_equal. change (String c' d' ++ b) with ("" ++ String c' d' ++ b).
    rewrite (IH "" Hd); [reflexivity | discriminate].
Qed.

(** Two texts that agree up to their first underscore. *)
Lemma split_at_underscore (d1 d2 r1 r2 : string) :
  contains "_" d1 = false -> contains "_" d2 = false ->
  d1 ++ String "_" r1 = d2 ++ String "_" r2 -> d1 = d2 /\ r1 = r2.
Proof.
  revert d2. induction d1 as [|c d1 IH]; intros [|c' d2] H1 H2 H.
  - simpl in H. injection H as H. now split.
  - simpl in H. injection H as Hc _. subst c'.
    rewrite contains_char_cons in H2. discriminate.
  - simpl in H. injection H as Hc _. subst c.
    rewrite contains_char_cons in H1. discriminate.
  - simpl in H. injection H as Hc H. subst c'.
    rewrite contains_char_cons in H1, H2.
    apply orb_false_iff in H1 as [_ H1]. apply orb_false_iff in H2 as [_ H2].
    destruct (IH d2 H1 H2 H) as [-> ->]. now split.
Qed.

(** The scan of a composed name whose fields leave three underscores only
    at the end. *)
Lemma strip_trailing (pre : string) :
  contains "___" (pre ++ "__") = false -> strip (pre ++ "___") = pre.
Proof.
  intros H.
  change (pre ++ "___") with (pre ++ "___" ++ "").
  rewrite (strip_first_match pre "" H). apply append_nil_r.
Qed.

Lemma strip_trailing6 (pre : string) :
  contains "___" (pre ++ "__") = false -> strip (pre ++ "______") = pre.
Proof.
  intros H.
  change (pre ++ "______") with (pre ++ "___" ++ "___").
  rewrite (strip_first_match pre "___" H). apply append_nil_r.
Qed.

End PyStrMore.

(* ================================================================== *)
(** * Naming service and generated names: further theorems *)
(* ================================================================== *)

Module NameFacts.
Import PyStr PyStrFacts PyStrMore.

Open Scope string_scope.

Lemma uint_digits_no_underscore (d : Decimal.uint) :
  contains "_" (DecimalString.NilEmpty.string_of_uint d) = false.
Proof.
  induction d; cbn [DecimalString.NilEmpty.string_of_uint];
    [reflexivity | rewrite contains_char_cons, IHd; reflexivity ..].
Qed.

Lemma uint_digits_nonempty (d : Decimal.uint) :
  d <> Decimal.Nil -> DecimalString.NilEmpty.string_of_uint d <> "".
Proof. destruct d; [contradiction | discriminate ..]. Qed.

Lemma py_str_int_no_underscore (z : Z) :
  contains "_" (py_str_int z) = false.
Proof.
  unfold py_str_int, DecimalString.NilZero.string_of_int,
    DecimalString.NilZero.string_of_uint.
  destruct (Z.to_int z) as [d|d]; destruct d;
    try reflexivity;
    try (rewrite contains_char_cons; cbn [orb Ascii.eqb Bool.eqb]);
    try apply (uint_digits_no_underscore (Decimal.D0 _));
    try apply (uint_digits_no_underscore (Decimal.D1 _));
    try apply (uint_digits_no_underscore (Decimal.D2 _));
    try apply (uint_digits_no_underscore (Decimal.D3 _));
    try apply (uint_digits_no_underscore (Decimal.D4 _));
    try apply (uint_digits_no_underscore (Decimal.D5 _));
    try apply (uint_digits_no_underscore (Decimal.D6 _));
    try apply (uint_digits_no_underscore (Decimal.D7 _));
    try apply (uint_digits_no_underscore (Decimal.D8 _));
    try apply (uint_digits_no_underscore (Decimal.D9 _)).
Qed.

Lemma py_str_int_nonempty (z : Z) : py_str_int z <> "".
Proof.
  unfold py_str_int, DecimalString.NilZero.string_of_int,
    DecimalString.NilZero.string_of_uint.
  destruct (Z.to_int z) as [d|d]; destruct d; discriminate.
Qed.

Lemma to_int_not_nil (z : Z) :
  Z.to_int z <> Decimal.Pos Decimal.Nil /\ Z.to_int z <> Decimal.Neg Decimal.Nil.
Proof.
  split; intros H;
    pose proof (DecimalZ.of_to z) as Hz; rewrite H in Hz;
    cbn in Hz; subst z; discriminate.
Qed.

(** Different integers print differently. *)
Lemma py_str_int_inj (a b : Z) : py_str_int a = py_str_int b -> a = b.
Proof.
  unfold py_str_int. intros H.
  destruct (to_int_not_nil a) as [Ha1 Ha2].
  destruct (to_int_not_nil b) as [Hb1 Hb2].
  pose proof (DecimalString.NilZero.isi _ Ha1 Ha2) as Ia.
  pose proof (DecimalString.NilZero.isi _ Hb1 Hb2) as Ib.
  rewrite H in Ia. rewrite Ia in Ib. injection Ib as Ib.
  apply DecimalZ.to_int_inj. exact Ib.
Qed.

(** With the module's configuration, a node tag that begins with ["0"] and a
    number comes back behind the system name, as it was written. *)
Lemma indexed_name (z : Z) (rest : string) :
  contains "___" (rest ++ "__") = false ->
  name_object module_config "__" ("0" ++ py_str_int z ++ rest) true
  = "trunk_var_fk_0" ++ py_str_int z ++ rest.
Proof.
  intros H. unfold name_object, composed_name.
  cbn [suffix side system_name module_config].
  replace ("__" ++ "_" ++ "trunk_var_fk" ++ "_"
             ++ ("0" ++ py_str_int z ++ rest) ++ "_" ++ "__")
    with ("___" ++ ("trunk_var_fk_0" ++ py_str_int z ++ rest) ++ "___")
    by (cbn [append]; rewrite !append_assoc; reflexivity).
  rewrite strip_match. apply strip_trailing.
  replace (("trunk_var_fk_0" ++ py_str_int z ++ rest) ++ "__")
    with ("trunk_var_fk_0" ++ py_str_int z ++ (rest ++ "__"))
    by (cbn [append]; rewrite !append_assoc; reflexivity).
  rewrite contains_triple_through;
    [ rewrite H; reflexivity
    | apply py_str_int_no_underscore
    | apply py_str_int_nonempty ].
Qed.

Lemma duplicated_joint_name_form (index : nat) :
  duplicated_joint_name module_config index
  = "trunk_var_fk_0" ++ py_str_int (Z.of_nat index + 1) ++ "_ctrl_jnt".
Proof. apply indexed_name. reflexivity. Qed.

Lemma duplicated_joint_parent_form (index : nat) :
  duplicated_joint_parent module_config index
  = "trunk_var_fk_0" ++ py_str_int (Z.of_nat index) ++ "_ctrl_jnt".
Proof. apply indexed_name. reflexivity. Qed.

Lemma main_offset_group_form (index : nat) :
  name_object module_config "__" (main_offset_group_label index) true
  = "trunk_var_fk_0" ++ py_str_int (Z.of_nat index + 1)
      ++ "_ctrl_jnt_main_offset_grp".
Proof. apply indexed_name. reflexivity. Qed.

Lemma joint_offset_group_form (index : nat) (ctrl : Z) :
  name_object module_config "__" (joint_offset_group_label index ctrl) true
  = "trunk_var_fk_0" ++ py_str_int (Z.of_nat index + 1)
      ++ "_ctrl_jnt_0" ++ py_str_int ctrl ++ "_offset_grp".
Proof.
  unfold joint_offset_group_label. apply indexed_name.
  replace (("_ctrl_jnt_0" ++ py_str_int ctrl ++ "_offset_grp") ++ "__")
    with ("_ctrl_jnt_0" ++ py_str_int ctrl ++ "_offset_grp__")
    by (cbn [append]; rewrite !append_assoc; reflexivity).
  rewrite contains_triple_through;
    [ reflexivity
    | apply py_str_int_no_underscore
    | apply py_str_int_nonempty ].
Qed.

Lemma current_node_name_form (value : Z) (label : string) :
  contains "___" ("_" ++ label ++ "__") = false ->
  current_node_name module_config value label
  = "trunk_var_fk_0" ++ py_str_int value ++ "_" ++ label.
Proof.
  intros H. unfold current_node_name. apply indexed_name.
  rewrite append_assoc. exact H.
Qed.

(** Two indexed names are equal only for equal numbers and equal rests,
    when the rests begin with an underscore. *)
Lemma indexed_inj (a b : Z) (r1 r2 : string) :
  "trunk_var_fk_0" ++ py_str_int a ++ String "_" r1
  = "trunk_var_fk_0" ++ py_str_int b ++ String "_" r2 ->
  a = b /\ r1 = r2.
Proof.
  intros H. apply append_inv_head in H.
  apply split_at_underscore in H;
    [| apply py_str_int_no_underscore | apply py_str_int_no_underscore].
  destruct H as [Hd Hr]. split; [apply py_str_int_inj; exact Hd | exact Hr].
Qed.

End NameFacts.


Module NameFacts2.
Import PyStr PyStrFacts PyStrMore NameFacts.

Open Scope string_scope.

Lemma starts_with_refl (s : string) : starts_with s s = true.
Proof.
  induction s as [|c s IH]; [reflexivity|].
  rewrite starts_with_cons, Ascii.eqb_refl. exact IH.
Qed.

Lemma contains_refl (s : string) : contains s s = true.
Proof.
  destruct s as [|c s]; [reflexivity|].
  cbn [contains]. now rewrite starts_with_refl.
Qed.

Lemma starts_with_length (p s : string) :
  starts_with p s = true -> (String.length p <= String.length s)%nat.
Proof.
  revert s. induction p as [|a p IH]; intros s H; [simpl; lia|].
  destruct s as [|b s]; [discriminate|].
  rewrite starts_with_cons in H. apply andb_true_iff in H as [_ H].
  apply IH in H. simpl. lia.
Qed.

Lemma starts_with_same_length (p s : string) :
  starts_with p s = true -> String.length p = String.length s -> p = s.
Proof.
  revert s. induction p as [|a p IH]; intros s H Hl.
  - destruct s; [reflexivity | discriminate].
  - destruct s as [|b s]; [discriminate|].
    rewrite starts_with_cons in H. apply andb_true_iff in H as [Hab H].
    apply Ascii.eqb_eq in Hab. subst b. f_equal. apply IH; [exact H|].
    simpl in Hl. lia.
Qed.

Lemma contains_too_long (sub s : string) :
  (String.length s < String.length sub)%nat -> contains sub s = false.
Proof.
  induction s as [|c s IH]; intros H.
  - destruct sub; [simpl in H; lia | reflexivity].
  - cbn [contains]. apply orb_false_iff. split.
    + destruct (starts_with sub (String c s)) eqn:E; [|reflexivity].
      apply starts_with_length in E. lia.
    + apply IH. simpl in H. lia.
Qed.

Lemma starts_with_common (g a b : string) :
  starts_with (g ++ a) (g ++ b) = starts_with a b.
Proof.
  induction g as [|c g IH]; [reflexivity|].
  simpl append. rewrite starts_with_cons, Ascii.eqb_refl. exact IH.
Qed.

(** Equal texts with tails of equal length have equal tails. *)
Lemma append_inv_tail (x y a b : string) :
  x ++ a = y ++ b -> String.length a = String.length b -> a = b.
Proof.
  revert y. induction x as [|c x IH]; intros y H Hl.
  - destruct y as [|c' y]; [exact H|].
    simpl in H. subst a. simpl in Hl. rewrite length_append in Hl. lia.
  - destruct y as [|c' y].
    + simpl in H. subst b. simpl in Hl. rewrite length_append in Hl. lia.
    + simpl in H. injection H as _ H. apply (IH y H Hl).
Qed.

(** For an offset group name that leaves no run of three underscores before
    the next separator, the node names of the falloff loop are the group
    name, an underscore and the tag. *)
Lemma starter_node_name_form (cfg : NamingConfig) (g : string)
    (c : ascii) (tag : string) :
  suffix cfg = true -> side cfg = "__" ->
  contains "___" (g ++ "_") = false ->
  Ascii.eqb "_" c = false ->
  contains "___" (tag ++ "__") = false ->
  starter_node_name cfg g (String c tag) = g ++ "_" ++ String c tag.
Proof.
  intros Hs Hside Hg Hc Htag.
  unfold starter_node_name, name_object, composed_name.
  rewrite Hs, Hside.
  replace (g ++ "_" ++ String c tag ++ "_" ++ "__")
    with ((g ++ "_" ++ String c tag) ++ "___")
    by (rewrite !append_assoc; reflexivity).
  apply strip_trailing.
  replace ((g ++ "_" ++ String c tag) ++ "__")
    with ((g ++ "_") ++ String c (tag ++ "__"))
    by (rewrite !append_assoc; reflexivity).
  rewrite (contains_triple_split _ _ _ Hc), Hg, Htag. reflexivity.
Qed.

(** The name of the front bound node does not occur in the name of the rear
    bound node. *)
Lemma front_not_in_rear (g : string) :
  contains (g ++ "_ctrlpos_plus_falloff_pma")
           (g ++ "_ctrlpos_minus_falloff_pma") = false.
Proof.
  set (F := "_ctrlpos_plus_falloff_pma").
  set (R := "_ctrlpos_minus_falloff_pma").
  assert (Hlen : String.length (g ++ R) = S (String.length (g ++ F))).
  { rewrite !length_append. subst F R. simpl. lia. }
  destruct (g ++ R) as [|c t] eqn:E; [simpl in Hlen; lia|].
  cbn [contains]. apply orb_false_iff. split.
  - rewrite <- E, starts_with_common. reflexivity.
  - simpl in Hlen. injection Hlen as Hlen.
    destruct t as [|c' t'].
    + simpl in Hlen. rewrite length_append in Hlen. subst F. simpl in Hlen. lia.
    + cbn [contains]. apply orb_false_iff. split.
      * destruct (starts_with (g ++ F) (String c' t')) eqn:S1; [|reflexivity].
        exfalso.
        apply starts_with_same_length in S1; [|now symmetry].
        rewrite <- S1 in E.
        assert (Ht : "nus_falloff_pma" = "lus_falloff_pma").
        { apply (append_inv_tail (g ++ "_ctrlpos_mi") (String c g ++ "_ctrlpos_p"));
            [|reflexivity].
          rewrite !append_assoc. exact E. }
        discriminate.
      * apply contains_too_long. simpl in Hlen. lia.
Qed.

End NameFacts2.

(** X11: the naming function only ever deletes underscores: with all
    underscores taken out, the returned name is the fields in their order
    with their underscores taken out; and it is never longer than the
    composed string. *)
Theorem name_object_keeps_letters
    (cfg : NamingConfig) (name node_name : string) (inc : bool) :
  let letters := PyStr.replace "_" "" in
  letters (name_object cfg name node_name inc)
  = (if suffix cfg
     then if inc
          then letters name ++ letters (system_name cfg)
                 ++ letters node_name ++ letters (side cfg)
          else letters name ++ letters node_name ++ letters (side cfg)
     else if inc
          then letters (side cfg) ++ letters name
                 ++ letters (system_name cfg) ++ letters node_name
          else letters (side cfg) ++ letters name ++ letters node_name) /\
  (String.length (name_object cfg name node_name inc)
   <= String.length (composed_name cfg name node_name inc))%nat.
Proof.
  intros letters. split.
  - unfold letters, name_object. rewrite PyStrMore.strip_keeps_letters.
    unfold composed_name.
    destruct (suffix cfg), inc;
      rewrite !PyStrMore.replace_char_app; reflexivity.
  - apply PyStrMore.strip_length.
Qed.

(** X12: with the side at the end and left out ([side = "__"]), a field
    given as ["__"] disappears together with its separators: without a base
    name the result is the system name and the tag, without a tag it is the
    base name and the system name, and without the system name it is the
    base name and the tag, each joined by one underscore, provided the
    fields themselves bring no run of three underscores. *)
Theorem name_object_absent_fields (cfg : NamingConfig) :
  suffix cfg = true -> side cfg = "__" ->
  (forall node_name,
     PyStr.contains "___" (system_name cfg ++ "_" ++ node_name ++ "__") = false ->
     name_object cfg "__" node_name true
     = system_name cfg ++ "_" ++ node_name) /\
  (forall name,
     PyStr.contains "___" (name ++ "_" ++ system_name cfg ++ "__") = false ->
     name_object cfg name "__" true = name ++ "_" ++ system_name cfg) /\
  (forall name node_name,
     PyStr.contains "___" (name ++ "_" ++ node_name ++ "__") = false ->
     name_object cfg name node_name false = name ++ "_" ++ node_name).
Proof.
  intros Hs Hside. unfold name_object, composed_name. rewrite Hs, Hside.
  split; [|split].
  - intros node_name H.
    replace ("__" ++ "_" ++ system_name cfg ++ "_" ++ node_name ++ "_" ++ "__")
      with ("___" ++ (system_name cfg ++ "_" ++ node_name) ++ "___")
      by (cbn [append]; rewrite !PyStrFacts.append_assoc; reflexivity).
    rewrite PyStrFacts.strip_match. apply PyStrMore.strip_trailing.
    rewrite !PyStrFacts.append_assoc. exact H.
  - intros name H.
    replace (name ++ "_" ++ system_name cfg ++ "_" ++ "__" ++ "_" ++ "__")
      with ((name ++ "_" ++ system_name cfg) ++ "______")
      by (rewrite !PyStrFacts.append_assoc; reflexivity).
    apply PyStrMore.strip_trailing6.
    rewrite !PyStrFacts.append_assoc. exact H.
  - intros name node_name H.
    replace (name ++ "_" ++ node_name ++ "_" ++ "__")
      with ((name ++ "_" ++ node_name) ++ "___")
      by (rewrite !PyStrFacts.append_assoc; reflexivity).
    apply PyStrMore.strip_trailing.
    rewrite !PyStrFacts.append_assoc. exact H.
Qed.

Lemma name_object_absent_fields_witness :
  name_object module_config "__" "01_ctrl" true = "trunk_var_fk_01_ctrl" /\
  name_object module_config "surface" "__" true = "surface_trunk_var_fk" /\
  name_object module_config "grp" "final_multi" false = "grp_final_multi".
Proof.
  destruct (name_object_absent_fields module_config eq_refl eq_refl)
    as (H1 & H2 & H3).
  split; [|split].
  - apply (H1 "01_ctrl"). reflexivity.
  - apply (H2 "surface"). reflexivity.
  - apply (H3 "grp" "final_multi"). reflexivity.
Defined.

(** X13: with the module's configuration the copy of the joint at position
    [index] is named ["trunk_var_fk_0<index+1>_ctrl_jnt"]; copies of
    different joints get different names; and the name the loop looks up as
    the parent of the joint at position [i] is the name of the copy of the
    joint at position [j] exactly when [i = j + 1], so the first joint looks
    up a name that no copy has. *)
Theorem duplicated_joint_names (i j : nat) :
  duplicated_joint_name module_config j
  = "trunk_var_fk_0" ++ py_str_int (Z.of_nat j + 1) ++ "_ctrl_jnt" /\
  (duplicated_joint_name module_config i = duplicated_joint_name module_config j
   -> i = j) /\
  (duplicated_joint_parent module_config i = duplicated_joint_name module_config j
   <-> i = S j).
Proof.
  split; [apply NameFacts.duplicated_joint_name_form|]. split.
  - rewrite !NameFacts.duplicated_joint_name_form. intros H.
    apply NameFacts.indexed_inj in H as [H _]. lia.
  - rewrite NameFacts.duplicated_joint_parent_form,
      NameFacts.duplicated_joint_name_form.
    split; intros H.
    + apply NameFacts.indexed_inj in H as [H _]. lia.
    + subst i. do 3 f_equal. lia.
Qed.

(** X14: with the side at the end and left out, and an offset group name
    that leaves no run of three underscores before the next separator, the
    test [falloff_position in falloff_rear_position] of the falloff loop
    tells the two bound nodes apart: it holds for the rear bound node and
    fails for the front one. *)
Theorem is_rear_side_tells_sides (cfg : NamingConfig) (g : string) :
  suffix cfg = true -> side cfg = "__" ->
  PyStr.contains "___" (g ++ "_") = false ->
  is_rear_side cfg g (starter_node_name cfg g "ctrlpos_minus_falloff_pma")
  = true /\
  is_rear_side cfg g (starter_node_name cfg g "ctrlpos_plus_falloff_pma")
  = false.
Proof.
  intros Hs Hside Hg. unfold is_rear_side.
  rewrite !(NameFacts2.starter_node_name_form cfg g "c" _ Hs Hside Hg eq_refl)
    by reflexivity.
  split.
  - apply NameFacts2.contains_refl.
  - apply NameFacts2.front_not_in_rear.
Qed.

Lemma is_rear_side_tells_sides_witness :
  is_rear_side module_config "trunk_var_fk_02_ctrl_jnt_03_offset_grp"
    (starter_node_name module_config "trunk_var_fk_02_ctrl_jnt_03_offset_grp"
       "ctrlpos_minus_falloff_pma") = true /\
  is_rear_side module_config "trunk_var_fk_02_ctrl_jnt_03_offset_grp"
    (starter_node_name module_config "trunk_var_fk_02_ctrl_jnt_03_offset_grp"
       "ctrlpos_plus_falloff_pma") = false.
Proof.
  apply (is_rear_side_tells_sides module_config
           "trunk_var_fk_02_ctrl_jnt_03_offset_grp" eq_refl eq_refl).
  reflexivity.
Defined.

(** X22: with the module's configuration, the nodes of the control loop are
    named ["trunk_var_fk_0<value>_<label>"] for every label that brings no
    run of three underscores with its separators, and for one label the
    names of two different loop values differ. *)
Theorem current_node_names (label : string) (value value' : Z) :
  PyStr.contains "___" ("_" ++ label ++ "__") = false ->
  current_node_name module_config value label
  = ("trunk_var_fk_0" ++ py_str_int value ++ "_" ++ label)%string /\
  (current_node_name module_config value label
   = current_node_name module_config value' label -> value = value').
Proof.
  intros H. split; [apply NameFacts.current_node_name_form; exact H|].
  rewrite !NameFacts.current_node_name_form by exact H.
  intros Heq. cbn [append] in Heq.
  apply NameFacts.indexed_inj in Heq as [Hv _]. exact Hv.
Qed.

Lemma current_node_names_witness :
  current_node_name module_config 2 "ctrl_grp" = "trunk_var_fk_02_ctrl_grp"%string.
Proof.
  apply (proj1 (current_node_names "ctrl_grp" 2 3 eq_refl)).
Defined.

(* ================================================================== *)
(** * [create_node]: theorems *)
(* ================================================================== *)

Open Scope list_scope.

Lemma connect_all_connections (l : list (string * string)) (g : Graph) :
  graph_connections
    (fold_left (fun g connect_attr_set => connectAttr connect_attr_set g) l g)
  = graph_connections g ++ l.
Proof.
  revert g. induction l as [|p l IH]; intros g; simpl.
  - now rewrite app_nil_r.
  - rewrite IH. simpl. now rewrite <- app_assoc.
Qed.

Lemma set_all_connections (l : list (string * Q)) (g : Graph) :
  graph_connections (fold_left (fun g set_attr => setAttr set_attr g) l g)
  = graph_connections g.
Proof.
  revert g. induction l as [|p l IH]; intros g; simpl; [reflexivity|].
  now rewrite IH.
Qed.

(** X15: in the attribute names handed to [create_node] every asterisk
    stands for the created node: a name is filtered piece by piece, an
    asterisk becomes the node name, and a name without an asterisk (a plug
    of another node) is passed on unchanged.  The connections are made in
    the order given, after those already in the graph, between the filtered
    names, and setting attributes adds no connection. *)
Theorem create_node_placeholder (node : string) :
  (forall a b, filter_name node (a ++ b)
               = (filter_name node a ++ filter_name node b)%string) /\
  filter_name node "*" = node /\
  (forall attr, PyStr.contains "*" attr = false ->
     filter_name node attr = attr /\
     filter_name node ("*" ++ attr) = (node ++ attr)%string) /\
  (forall type connect_attrs set_attrs g,
     fst (create_node type node (Some connect_attrs) set_attrs g) = node /\
     graph_connections
       (snd (create_node type node (Some connect_attrs) set_attrs g))
     = graph_connections g
       ++ map (fun attribute => (filter_name node (fst attribute),
                                 filter_name node (snd attribute)))
              connect_attrs).
Proof.
  assert (Hstar : filter_name node "*" = node).
  { unfold filter_name. rewrite PyStrMore.replace_char_cons.
    simpl. apply PyStrMore.append_nil_r. }
  assert (Hclean : forall attr, PyStr.contains "*" attr = false ->
                                filter_name node attr = attr).
  { intros attr H. apply PyStrMore.replace_absent. exact H. }
  split; [|split; [|split]].
  - intros a b. apply PyStrMore.replace_char_app.
  - exact Hstar.
  - intros attr H. split; [apply Hclean; exact H|].
    unfold filter_name. rewrite PyStrMore.replace_char_app.
    fold (filter_name node "*"). fold (filter_name node attr).
    now rewrite Hstar, Hclean.
  - intros type connect_attrs set_attrs g. split; [reflexivity|].
    unfold create_node. cbn [snd].
    destruct set_attrs as [sets|].
    + rewrite set_all_connections, connect_all_connections. reflexivity.
    + rewrite connect_all_connections. reflexivity.
Qed.

(* ================================================================== *)
(** * Controls and joints at the edges *)
(* ================================================================== *)




(* ================================================================== *)
(** * The surface: theorems *)
(* ================================================================== *)

Lemma filter_keeps_all {A : Type} (f : A -> bool) (l : list A) :
  (forall x, In x l -> f x = true) -> filter f l = l.
Proof.
  induction l as [|x l IH]; intros H; [reflexivity|].
  simpl. rewrite (H x (or_introl eq_refl)). f_equal.
  apply IH. intros y Hy. apply H. now right.
Qed.

(** X17: when the checks pass and the scene holds no node under the names
    of the temporary curve and of its copy, and the surface is not given one
    of these names, [create_nurbs_surface] returns the surface name and
    leaves the nodes of the scene as they were plus the surface: both
    temporary curves are gone. *)
Theorem create_nurbs_surface_cleans_up
    (cfg : NamingConfig) (copy_name : string -> string)
    (joints : list string) (s : Scene) :
  let crv := "temp_variable_fk_curve"%string in
  let surface := name_object cfg "surface" "__" true in
  check_joints joints s = Returned tt s ->
  (forall e, In e (scene_nodes s) -> fst e <> crv /\ fst e <> copy_name crv) ->
  surface <> crv -> surface <> copy_name crv ->
  exists s',
    create_nurbs_surface cfg copy_name joints s = Returned surface s' /\
    scene_nodes s' = scene_nodes s ++ [(surface, "transform"%string)].
Proof.
  intros crv surface Hcheck Hfresh Hs1 Hs2.
  unfold create_nurbs_surface. unfold bind at 1. rewrite Hcheck.
  eexists. split; [reflexivity|].
  cbn [scene_nodes]. rewrite !filter_app. cbn [filter fst existsb].
  fold crv. fold surface.
  rewrite !String.eqb_refl, ?orb_true_r. cbn [orb negb].
  rewrite (proj2 (String.eqb_neq surface (copy_name crv)) Hs2).
  rewrite (proj2 (String.eqb_neq surface crv) Hs1).
  cbn [orb negb]. rewrite !app_nil_r.
  f_equal. apply filter_keeps_all.
  intros e He. destruct (Hfresh e He) as [H1 H2].
  rewrite (proj2 (String.eqb_neq (fst e) (copy_name crv)) H2).
  rewrite (proj2 (String.eqb_neq (fst e) crv) H1). reflexivity.
Qed.

Lemma create_nurbs_surface_cleans_up_witness :
  exists s',
    create_nurbs_surface module_config (fun n => n ++ "1")%string
      ["joint1"; "joint2"; "joint3"; "joint4"]%string
      {| scene_nodes :=
           [("joint1", "joint"); ("joint2", "joint"); ("joint3", "joint");
            ("joint4", "joint")]%string;
         scene_selection := [] |}
    = Returned (name_object module_config "surface" "__" true) s' /\
    scene_nodes s'
    = [("joint1", "joint"); ("joint2", "joint"); ("joint3", "joint");
       ("joint4", "joint"); ("surface_trunk_var_fk", "transform")]%string.
Proof.
  apply (create_nurbs_surface_cleans_up module_config
           (fun n => n ++ "1")%string
           ["joint1"; "joint2"; "joint3"; "joint4"]%string
           {| scene_nodes :=
                [("joint1", "joint"); ("joint2", "joint"); ("joint3", "joint");
                 ("joint4", "joint")]%string;
              scene_selection := [] |}).
  - reflexivity.
  - intros e He. simpl in He.
    destruct He as [<-|[<-|[<-|[<-|[]]]]]; split; discriminate.
  - discriminate.
  - discriminate.
Defined.

(* ================================================================== *)
(** * Offset groups: theorems *)
(* ================================================================== *)

Section OffsetGroupFacts.

Variable cfg : NamingConfig.

Local Abbreviation group_name := (fun name => name_object cfg "__" name true).

Lemma create_offset_group_inserts (name target : string) (h : Hierarchy) :
  group_name name <> target ->
  fst (create_offset_group cfg name target h) = group_name name /\
  h_nodes (snd (create_offset_group cfg name target h))
  = h_nodes h ++ [group_name name] /\
  h_parent (snd (create_offset_group cfg name target h)) target
  = Some (group_name name) /\
  h_parent (snd (create_offset_group cfg name target h)) (group_name name)
  = h_parent h target /\
  (forall n, n <> target -> n <> group_name name ->
     h_parent (snd (create_offset_group cfg name target h)) n = h_parent h n).
Proof.
  intros Hne. unfold create_offset_group.
  assert (Hgt : String.eqb (group_name name) target = false)
    by (apply String.eqb_neq; exact Hne).
  assert (Htg : String.eqb target (group_name name) = false)
    by (apply String.eqb_neq; congruence).
  destruct (h_parent h target) as [p|] eqn:Ep; cbn [fst snd h_nodes h_parent
    set_parent group_empty]; rewrite ?String.eqb_refl, ?Hgt, ?Htg.
  - repeat split; try reflexivity.
    intros n H1 H2.
    apply String.eqb_neq in H1, H2. rewrite H1, H2. reflexivity.
  - repeat split; try reflexivity.
    intros n H1 H2.
    apply String.eqb_neq in H1, H2. rewrite H1, H2. reflexivity.
Qed.

(** X18: [create_offset_group] puts the new group between the target and
    the parent the target had: the target's parent becomes the group, the
    group takes the target's former parent (or stays under the world when
    there was none), and no other node changes its parent. *)
Theorem create_offset_group_between (name target : string) (h : Hierarchy) :
  group_name name <> target ->
  let offset_group := fst (create_offset_group cfg name target h) in
  let h' := snd (create_offset_group cfg name target h) in
  offset_group = group_name name /\
  h_parent h' target = Some offset_group /\
  h_parent h' offset_group = h_parent h target /\
  (forall n, n <> target -> n <> offset_group -> h_parent h' n = h_parent h n).
Proof.
  intros Hne offset_group h'.
  destruct (create_offset_group_inserts name target h Hne)
    as (Hg & _ & Ht & Hp & Ho).
  unfold offset_group, h'. rewrite Hg.
  split; [reflexivity|]. split; [exact Ht|]. split; [exact Hp | exact Ho].
Qed.

Lemma create_offset_groups_chain (names : list string) (target : string) :
  NoDup (map group_name names) ->
  ~ In target (map group_name names) ->
  forall (h : Hierarchy) (groups : list string) (h' : Hierarchy),
  create_offset_groups cfg names target h = (groups, h') ->
  groups = map group_name names /\
  h_nodes h' = h_nodes h ++ groups /\
  (forall last_group,
     nth_error groups (pred (List.length groups)) = Some last_group ->
     h_parent h' target = Some last_group) /\
  (forall i outer inner,
     nth_error groups i = Some outer ->
     nth_error groups (S i) = Some inner ->
     h_parent h' inner = Some outer) /\
  (forall first_group,
     nth_error groups 0 = Some first_group ->
     h_parent h' first_group = h_parent h target) /\
  (forall n, n <> target -> ~ In n groups -> h_parent h' n = h_parent h n).
Proof.
  induction names as [|name rest IH]; intros Hnd Hnt h groups h' Hrun.
  - cbn in Hrun. injection Hrun as <- <-.
    repeat split; try (intros; discriminate); try reflexivity.
    now rewrite app_nil_r.
  - cbn [create_offset_groups] in Hrun.
    destruct (create_offset_group cfg name target h) as [g h1] eqn:E1.
    destruct (create_offset_groups cfg rest target h1) as [gs h2] eqn:E2.
    injection Hrun as <- <-.
    cbn [map] in Hnd, Hnt. inversion Hnd as [|? ? Hnotin Hnd']; subst.
    assert (Hne : group_name name <> target)
      by (intros Heq; apply Hnt; left; exact Heq).
    assert (Hnt' : ~ In target (map group_name rest))
      by (intros Hin; apply Hnt; right; exact Hin).
    destruct (create_offset_group_inserts name target h Hne)
      as (Hg & Hn1 & Ht1 & Hp1 & Ho1).
    rewrite E1 in Hg, Hn1, Ht1, Hp1, Ho1. cbn [fst snd] in *. subst g.
    destruct (IH Hnd' Hnt' h1 gs h2 E2) as (Hgs & Hn2 & Hl2 & Hc2 & Hf2 & Ho2).
    subst gs.
    split; [reflexivity|]. split.
    { rewrite Hn2, Hn1, <- app_assoc. reflexivity. }
    split.
    { intros last_group Hlast. cbn [List.length pred] in Hlast.
      destruct (map group_name rest) as [|g' gs'] eqn:Er.
      - cbn [List.length pred nth_error] in Hlast. injection Hlast as <-.
        destruct rest; [|discriminate Er].
        cbn in E2. injection E2 as <-. exact Ht1.
      - cbn [List.length nth_error] in Hlast. apply Hl2. exact Hlast. }
    split.
    { intros i outer inner Ho Hi. destruct i as [|i].
      - cbn [nth_error] in Ho. injection Ho as <-. cbn [nth_error] in Hi.
        rewrite (Hf2 inner Hi). exact Ht1.
      - cbn [nth_error] in Ho, Hi. apply (Hc2 i outer inner Ho Hi). }
    split.
    { intros first_group Hfirst. cbn [nth_error] in Hfirst.
      injection Hfirst as <-.
      rewrite (Ho2 (name_object cfg "__" name true) Hne Hnotin). exact Hp1. }
    { intros n Hn Hnin. rewrite (Ho2 n Hn).
      - apply Ho1; [exact Hn|]. intros Heq. apply Hnin. left. now symmetry.
      - intros Hin. apply Hnin. right. exact Hin. }
Qed.

(** X19: offset groups created one after the other on the same target,
    under names that differ from each other and from the target, nest in the
    order of creation: the first one takes the place the target had, each
    later one sits directly under the one before it, the target ends up
    directly under the last one, and no other node changes its parent. *)
Theorem create_offset_groups_nest (names : list string) (target : string)
    (h : Hierarchy) :
  NoDup (map group_name names) ->
  ~ In target (map group_name names) ->
  let groups := fst (create_offset_groups cfg names target h) in
  let h' := snd (create_offset_groups cfg names target h) in
  groups = map group_name names /\
  (forall last_group,
     nth_error groups (pred (List.length groups)) = Some last_group ->
     h_parent h' target = Some last_group) /\
  (forall i outer inner,
     nth_error groups i = Some outer ->
     nth_error groups (S i) = Some inner ->
     h_parent h' inner = Some outer) /\
  (forall first_group,
     nth_error groups 0 = Some first_group ->
     h_parent h' first_group = h_parent h target) /\
  (forall n, n <> target -> ~ In n groups -> h_parent h' n = h_parent h n).
Proof.
  intros Hnd Hnt groups h'.
  destruct (create_offset_groups_chain names target Hnd Hnt h groups h')
    as (H1 & _ & H3 & H4 & H5 & H6).
  { unfold groups, h'. now destruct (create_offset_groups cfg names target h). }
  repeat split; assumption.
Qed.

End OffsetGroupFacts.

(* ================================================================== *)
(** * The hierarchy of one joint: theorems *)
(* ================================================================== *)

Module JointNames.
Import PyStr PyStrFacts PyStrMore NameFacts.

Open Scope string_scope.

Local Abbreviation J := (duplicated_joint_name module_config).
Local Abbreviation P := (duplicated_joint_parent module_config).
Local Abbreviation M :=
  (fun index => name_object module_config "__" (main_offset_group_label index) true).
Local Abbreviation G :=
  (fun index ctrl =>
     name_object module_config "__" (joint_offset_group_label index ctrl) true).

Lemma G_inj (index : nat) (c c' : Z) : G index c = G index c' -> c = c'.
Proof.
  cbn beta. rewrite !joint_offset_group_form. intros H.
  cbn [append] in H. apply indexed_inj in H as [_ H].
  apply (append_inv_head "ctrl_jnt_0") in H.
  change (py_str_int c ++ String "_" "offset_grp"
          = py_str_int c' ++ String "_" "offset_grp") in H.
  apply split_at_underscore in H;
    [| apply py_str_int_no_underscore | apply py_str_int_no_underscore].
  apply py_str_int_inj. apply H.
Qed.

Lemma G_ne_J (index : nat) (c : Z) : G index c <> J index.
Proof.
  cbn beta. rewrite joint_offset_group_form, duplicated_joint_name_form.
  intros H. cbn [append] in H. apply indexed_inj in H as [_ H].
  change ("ctrl_jnt" ++ String "_" (String "0" (py_str_int c ++ "_offset_grp"))
          = "ctrl_jnt" ++ "") in H.
  apply append_inv_head in H. discriminate.
Qed.

Lemma G_ne_M (index : nat) (c : Z) : G index c <> M index.
Proof.
  cbn beta. rewrite joint_offset_group_form, main_offset_group_form.
  intros H. cbn [append] in H. apply indexed_inj in H as [_ H].
  change ("ctrl_jnt_" ++ String "0" (py_str_int c ++ "_offset_grp")
          = "ctrl_jnt_" ++ "main_offset_grp") in H.
  apply append_inv_head in H. discriminate.
Qed.

Lemma M_ne_J (index : nat) : M index <> J index.
Proof.
  cbn beta. rewrite main_offset_group_form, duplicated_joint_name_form.
  intros H. cbn [append] in H. apply indexed_inj in H as [_ H]. discriminate.
Qed.

Lemma P_ne_J (index : nat) : P index <> J index.
Proof.
  rewrite duplicated_joint_parent_form, duplicated_joint_name_form.
  intros H. cbn [append] in H. apply indexed_inj in H as [H _]. lia.
Qed.

Lemma P_ne_M (index : nat) : P index <> M index.
Proof.
  cbn beta. rewrite duplicated_joint_parent_form, main_offset_group_form.
  intros H. cbn [append] in H. apply indexed_inj in H as [H _]. lia.
Qed.

Lemma P_ne_G (index : nat) (c : Z) : P index <> G index c.
Proof.
  cbn beta. rewrite duplicated_joint_parent_form, joint_offset_group_form.
  intros H. cbn [append] in H. apply indexed_inj in H as [H _]. lia.
Qed.

End JointNames.

Lemma NoDup_map_injective {A B : Type} (f : A -> B) (l : list A) :
  (forall x y, f x = f y -> x = y) -> NoDup l -> NoDup (map f l).
Proof.
  intros Hinj Hnd. induction Hnd as [|x l Hx Hnd IH]; [constructor|].
  cbn [map]. constructor; [|exact IH].
  intros Hin. apply in_map_iff in Hin as (y & Hy & Hyl).
  apply Hinj in Hy. subst y. contradiction.
Qed.

Section JointHierarchyFacts.

Open Scope list_scope.
Open Scope Z_scope.

Variable number_of_controls : Z.
Variable index : nat.

Local Abbreviation J := (duplicated_joint_name module_config index).
Local Abbreviation P := (duplicated_joint_parent module_config index).
Local Abbreviation M :=
  (name_object module_config "__" (main_offset_group_label index) true).
Local Abbreviation G :=
  (fun ctrl =>
     name_object module_config "__" (joint_offset_group_label index ctrl) true).
Local Abbreviation labels :=
  (map (joint_offset_group_label index) (py_range 1 (number_of_controls + 1))).
Local Abbreviation groups_of_joint :=
  (map G (py_range 1 (number_of_controls + 1))).

Lemma groups_of_joint_names :
  map (fun name => name_object module_config "__" name true) labels
  = groups_of_joint.
Proof. apply map_map. Qed.

Lemma groups_of_joint_nth (i : nat) :
  (i < Z.to_nat number_of_controls)%nat ->
  nth_error groups_of_joint i = Some (G (1 + Z.of_nat i)).
Proof.
  intros H. rewrite nth_error_map, py_range_nth; [reflexivity|].
  replace (number_of_controls + 1 - 1)%Z with number_of_controls by lia.
  exact H.
Qed.

Lemma groups_of_joint_length :
  List.length groups_of_joint = Z.to_nat number_of_controls.
Proof.
  rewrite length_map, py_range_length. f_equal. lia.
Qed.

Lemma groups_of_joint_NoDup : NoDup groups_of_joint.
Proof.
  apply NoDup_map_injective.
  - intros c c' H. apply (JointNames.G_inj index c c' H).
  - unfold py_range. apply NoDup_map_injective; [|apply seq_NoDup].
    intros a b H. lia.
Qed.

Lemma in_groups_of_joint (n : string) :
  In n groups_of_joint -> exists c, n = G c.
Proof.
  intros H. apply in_map_iff in H as (c & Hc & _). exists c. now symmetry.
Qed.

Lemma not_exists_in (n : string) (l : list string) :
  ~ In n l -> existsb (String.eqb n) l = false.
Proof.
  intros H. destruct (existsb (String.eqb n) l) eqn:E; [|reflexivity].
  apply existsb_exists in E as (x & Hx & Hn).
  apply String.eqb_eq in Hn. subst x. contradiction.
Qed.

(** X20: with the module's configuration and at least one control, one pass
    of the joint loop over a scene in which none of the new names is taken
    leaves the copy of the joint at the bottom of a single chain: the copy
    sits under the offset group of the last control, the group of each
    control sits under the group of the control before it, the group of the
    first control sits under the main offset group, and the main offset
    group sits under the copy of the previous joint when a node of that name
    exists, under the world otherwise.  No other node changes its parent. *)
Theorem joint_hierarchy_chain (jnt : string) (h : Hierarchy) :
  (1 <= number_of_controls)%Z ->
  (forall n, In n (J :: M :: groups_of_joint) -> ~ In n (h_nodes h)) ->
  exists h',
    joint_hierarchy module_config number_of_controls index jnt h = Value h' /\
    h_parent h' J = Some (G number_of_controls) /\
    (forall c, (1 <= c < number_of_controls)%Z ->
       h_parent h' (G (c + 1)) = Some (G c)) /\
    h_parent h' (G 1) = Some M /\
    h_parent h' M = (if objExists P h then Some P else None) /\
    (forall n, n <> J -> n <> M -> ~ In n groups_of_joint ->
       h_parent h' n = h_parent h n).
Proof.
  intros HN _.
  unfold joint_hierarchy.
  set (h0 := set_parent J None (duplicate_parent_only jnt J h)).
  destruct (create_offset_groups module_config labels J h0)
    as [groups h2] eqn:E.
  assert (HJ : ~ In J groups_of_joint).
  { intros Hin. apply in_groups_of_joint in Hin as [c Hc].
    symmetry in Hc. exact (JointNames.G_ne_J index c Hc). }
  destruct (create_offset_groups_chain module_config labels J) with
    (h := h0) (groups := groups) (h' := h2)
    as (Hgs & Hn2 & Hlast & Hchain & Hfirst & Hother).
  { rewrite groups_of_joint_names. apply groups_of_joint_NoDup. }
  { rewrite groups_of_joint_names. exact HJ. }
  { exact E. }
  rewrite groups_of_joint_names in Hgs. subst groups.
  assert (H0 : nth_error groups_of_joint 0 = Some (G 1)).
  { rewrite groups_of_joint_nth by lia. reflexivity. }
  destruct groups_of_joint as [|first others] eqn:Eg; [discriminate|].
  cbn [nth_error] in H0. injection H0 as ->.
  rewrite <- Eg in *.
  assert (HMG : M <> G 1).
  { intros Heq. symmetry in Heq. exact (JointNames.G_ne_M index 1 Heq). }
  destruct (create_offset_group_inserts module_config
              (main_offset_group_label index) (G 1) h2 HMG)
    as (Hm & Hn3 & Ht3 & Hp3 & Ho3).
  destruct (create_offset_group module_config (main_offset_group_label index)
              (G 1) h2) as [m h3] eqn:E3.
  cbn [fst snd] in Hm, Hn3, Ht3, Hp3, Ho3. subst m.
  (* the links before the last step *)
  assert (HG1in : In (G 1) groups_of_joint) by (rewrite Eg; now left).
  assert (L1 : h_parent h3 J = Some (G number_of_controls)).
  { rewrite Ho3.
    - apply Hlast. rewrite groups_of_joint_length.
      rewrite groups_of_joint_nth by lia.
      replace (1 + Z.of_nat (pred (Z.to_nat number_of_controls)))
        with number_of_controls by lia.
      reflexivity.
    - intros Heq. apply HJ. rewrite Heq. exact HG1in.
    - intros Heq. symmetry in Heq. exact (JointNames.M_ne_J index Heq). }
  assert (L2 : forall c, (1 <= c < number_of_controls)%Z ->
                 h_parent h3 (G (c + 1)) = Some (G c)).
  { intros c Hc. rewrite Ho3.
    - apply (Hchain (Z.to_nat (c - 1))).
      + rewrite groups_of_joint_nth by lia.
        replace (1 + Z.of_nat (Z.to_nat (c - 1))) with c by lia.
        reflexivity.
      + rewrite groups_of_joint_nth by lia.
        replace (1 + Z.of_nat (S (Z.to_nat (c - 1)))) with (c + 1) by lia.
        reflexivity.
    - intros Heq. apply JointNames.G_inj in Heq. lia.
    - exact (JointNames.G_ne_M index (c + 1)). }
  assert (L4 : h_parent h3 M = None).
  { rewrite Hp3, (Hfirst (G 1)).
    - unfold h0. cbn [h_parent set_parent]. now rewrite String.eqb_refl.
    - rewrite Eg. reflexivity. }
  assert (L5 : forall n, n <> J -> n <> M -> ~ In n groups_of_joint ->
                 h_parent h3 n = h_parent h n).
  { intros n H1 H2 H3. rewrite Ho3, Hother; try assumption.
    - unfold h0. cbn [h_parent set_parent duplicate_parent_only].
      apply String.eqb_neq in H1. now rewrite H1.
    - intros Heq. apply H3. rewrite Heq. exact HG1in. }
  assert (HP : objExists P h3 = objExists P h).
  { unfold objExists. rewrite Hn3, Hn2. unfold h0.
    cbn [h_nodes set_parent duplicate_parent_only].
    rewrite !existsb_app. cbn [existsb].
    rewrite (proj2 (String.eqb_neq _ _) (JointNames.P_ne_J index)).
    rewrite (proj2 (String.eqb_neq _ _) (JointNames.P_ne_M index)).
    rewrite (not_exists_in P groups_of_joint).
    - now rewrite !orb_false_r.
    - intros Hin. apply in_groups_of_joint in Hin as [c Hc].
      exact (JointNames.P_ne_G index c Hc). }
  rewrite HP.
  assert (HGM : forall c, String.eqb (G c) M = false).
  { intros c. apply String.eqb_neq. exact (JointNames.G_ne_M index c). }
  assert (HJM : String.eqb J M = false).
  { apply String.eqb_neq. intros Heq. symmetry in Heq.
    exact (JointNames.M_ne_J index Heq). }
  destruct (objExists P h).
  - eexists. split; [reflexivity|].
    cbn [h_parent set_parent]. rewrite HJM, String.eqb_refl.
    split; [exact L1|].
    split; [intros c Hc; rewrite HGM; apply L2; exact Hc|].
    split; [rewrite HGM; exact Ht3|].
    split; [reflexivity|].
    intros n H1 H2 H3. apply String.eqb_neq in H2 as H2'. rewrite H2'.
    apply L5; assumption.
  - exists h3. split; [reflexivity|].
    split; [exact L1|]. split; [exact L2|]. split; [exact Ht3|].
    split; [exact L4 | exact L5].
Qed.

End JointHierarchyFacts.

(* ================================================================== *)
(** * Orientation of the controls: theorems *)
(* ================================================================== *)

Section ClosestJoint.

Open Scope list_scope.
Open Scope Q_scope.

Variable key : Q -> Q.

(** The minimum is the first of the elements with the smallest key. *)
Lemma py_min_from_first (best : Q) (rest : list Q) :
  exists pre post,
    best :: rest = pre ++ py_min_from key best rest :: post /\
    (forall q, In q pre -> key (py_min_from key best rest) < key q) /\
    (forall q, In q post -> key (py_min_from key best rest) <= key q).
Proof.
  revert best. induction rest as [|x r IH]; intros best.
  - exists [], []. cbn [py_min_from]. repeat split; intros q [].
  - cbn [py_min_from].
    destruct (Qle_bool (key best) (key x)) eqn:E; cbn [negb].
    + apply Qle_bool_iff in E.
      destruct (IH best) as (pre & post & Heq & Hpre & Hpost).
      set (m := py_min_from key best r) in *.
      destruct pre as [|b pre].
      * cbn [app] in Heq. injection Heq as Hm Hr.
        exists [], (x :: r). rewrite <- Hm. cbn [app].
        split; [reflexivity|]. split; [intros q []|].
        intros q [<-|Hq]; [exact E|].
        rewrite Hm. apply Hpost. rewrite <- Hr. exact Hq.
      * cbn [app] in Heq. injection Heq as Hb Hr. subst b.
        exists (best :: x :: pre), post. cbn [app]. rewrite Hr.
        split; [reflexivity|]. split; [|exact Hpost].
        assert (Hbest : key m < key best) by (apply Hpre; now left).
        intros q [<-|[<-|Hq]].
        -- exact Hbest.
        -- lra.
        -- apply Hpre. now right.
    + apply Qle_bool_false in E.
      destruct (IH x) as (pre & post & Heq & Hpre & Hpost).
      set (m := py_min_from key x r) in *.
      exists (best :: pre), post. cbn [app]. rewrite Heq.
      split; [reflexivity|]. split; [|exact Hpost].
      assert (Hx : key m <= key x).
      { destruct pre as [|b pre].
        - cbn [app] in Heq. injection Heq as Hm _. rewrite <- Hm. lra.
        - cbn [app] in Heq. injection Heq as Hb _. subst b.
          apply Qlt_le_weak, Hpre. now left. }
      intros q [<-|Hq]; [lra | apply Hpre; exact Hq].
Qed.

End ClosestJoint.

Lemma py_index_first (v x : Q) (pre post : list Q) :
  (forall q, In q pre -> ~ q == v) -> x == v ->
  py_index v (pre ++ x :: post) = Value (List.length pre).
Proof.
  intros Hpre Hx. induction pre as [|q pre IH].
  - cbn [app py_index List.length].
    apply Qeq_bool_iff in Hx. now rewrite Hx.
  - cbn [app py_index List.length].
    destruct (Qeq_bool q v) eqn:E.
    + apply Qeq_bool_iff in E. exfalso. apply (Hpre q); [now left | exact E].
    + rewrite IH; [reflexivity|]. intros q' Hq'. apply Hpre. now right.
Qed.

(** X21: a control is oriented to the joint nearest to it along the
    surface, and among equally near joints to the one that comes first in
    the selection: over a non-empty list of joint positions the index found
    is that of a joint no farther from the control than any other, and every
    joint before it is strictly farther.  Over an empty list the search
    raises [ValueError]. *)
Theorem closest_joint_index_first_nearest
    (joint_positions : list Q) (ctrl_position : Q) :
  closest_joint_index [] ctrl_position = Exception "ValueError" /\
  (joint_positions <> [] ->
   exists i p,
     closest_joint_index joint_positions ctrl_position = Value i /\
     nth_error joint_positions i = Some p /\
     (forall q, In q joint_positions ->
        Qabs (p - ctrl_position) <= Qabs (q - ctrl_position)) /\
     (forall j q, (j < i)%nat -> nth_error joint_positions j = Some q ->
        Qabs (p - ctrl_position) < Qabs (q - ctrl_position))).
Proof.
  split; [reflexivity|]. intros Hne.
  destruct joint_positions as [|first rest]; [contradiction|].
  unfold closest_joint_index, py_min.
  set (key := fun current_joint_position : Q =>
                Qabs (current_joint_position - ctrl_position)).
  destruct (py_min_from_first key first rest)
    as (pre & post & Heq & Hpre & Hpost).
  set (m := py_min_from key first rest) in *.
  exists (List.length pre), m. rewrite Heq.
  split.
  { apply py_index_first; [|reflexivity].
    intros q Hq Hqm. specialize (Hpre q Hq). unfold key in Hpre.
    rewrite Hqm in Hpre. lra. }
  split.
  { rewrite nth_error_app2 by lia. now rewrite Nat.sub_diag. }
  split.
  { intros q Hq. apply in_app_iff in Hq as [Hq|[<-|Hq]].
    - apply Qlt_le_weak. apply (Hpre q Hq).
    - lra.
    - apply (Hpost q Hq). }
  { intros j q Hj Hq. rewrite nth_error_app1 in Hq by exact Hj.
    apply nth_error_In in Hq. apply (Hpre q Hq). }
Qed.

(* ================================================================== *)
(** * Worked instances *)
(* ================================================================== *)

Open Scope Q_scope.
Open Scope list_scope.

Lemma sideSelect_closed_form_witness :
  sideSelect (fun _ => 0) example_control 0.9
  == 1 - Qabs (0.9 - 0.5) / 0.2 /\
  sideSelect (fun _ => 0) example_control 0.9 < 0.
Proof.
  assert (Hf : 0 < falloff example_control) by reflexivity.
  destruct (sideSelect_closed_form (fun _ => 0) example_control 0.9 Hf)
    as [Hform Hneg].
  split; [exact Hform|]. apply Hneg. reflexivity.
Defined.

Lemma sideSelect_peak_and_symmetry_witness :
  sideSelect (fun _ => 0) example_control 0.4 <= 1 /\
  (sideSelect (fun _ => 0) example_control 0.4 == 1 <-> 0.4 == 0.5) /\
  sideSelect (fun _ => 0) example_control (0.5 + 0.1)
  == sideSelect (fun _ => 0) example_control (0.5 - 0.1).
Proof.
  apply (sideSelect_peak_and_symmetry (fun _ => 0) example_control 0.4 0.1).
  reflexivity.
Defined.

Lemma offset_group_rotate_zone_witness :
  offset_group_rotate (fun _ => 0) 5 example_control 0.75 = D3 0 0 0 /\
  offset_group_rotate (fun _ => 0) 5 example_control 0.6
  = perControlShare (fun _ => 0) 5 example_control 0.6.
Proof.
  assert (Hf : 0 < falloff example_control) by reflexivity.
  split.
  - apply (proj1 (offset_group_rotate_zone (fun _ => 0) 5 example_control
                    0.75 Hf)).
    right. vm_compute. discriminate.
  - apply (proj2 (offset_group_rotate_zone (fun _ => 0) 5 example_control
                    0.6 Hf)).
    split; vm_compute; reflexivity.
Defined.

Lemma numOfJointsEffected_range_witness :
  1 <= numOfJointsEffected (fun _ => 0) 5 example_control <= 5.
Proof.
  apply (numOfJointsEffected_range (fun _ => 0) 5 example_control).
  lia.
Defined.

Lemma offset_group_rotate_at_rest_witness :
  d3_eq (offset_group_rotate (fun _ => 0) 5 (new_control 3 2) 0.5) (D3 0 0 0).
Proof.
  apply (offset_group_rotate_at_rest (fun _ => 0) 5 (new_control 3 2) 0.5).
  repeat split; reflexivity.
Defined.

Lemma offset_group_rotate_never_divides_by_zero_witness :
  offset_group_rotate (fun _ => 0) 5 example_control 0.4
  = offset_group_rotate (fun a => a) 5 example_control 0.4.
Proof.
  apply (offset_group_rotate_never_divides_by_zero
           (fun _ => 0) (fun a => a) 5 example_control 0.4).
  - repeat split; vm_compute; discriminate.
  - lia.
Defined.

Lemma new_control_within_limits_witness : within_limits (new_control 3 2).
Proof. apply (new_control_within_limits 3 2). lia. Defined.

Lemma control_positions_even_witness :
  position (new_control 3 3) - position (new_control 3 2) == 1 / inject_Z 4 /\
  position (new_control 3 2) + position (new_control 3 (3 + 1 - 2)) == 1.
Proof.
  assert (H : (1 <= 2 <= 3)%Z) by lia.
  destruct (control_positions_even 3 2 H) as (Hgap & _ & _ & Hsym).
  split; [apply Hgap; lia | exact Hsym].
Defined.


Lemma create_offset_group_between_witness :
  h_parent
    (snd (create_offset_group module_config "01_ctrl_jnt_01_offset_grp"
            "trunk_var_fk_01_ctrl_jnt"
            {| h_nodes := ["trunk_var_fk_01_ctrl_jnt"%string];
               h_parent := fun _ => Some "root"%string |}))
    "trunk_var_fk_01_ctrl_jnt"
  = Some (fst (create_offset_group module_config "01_ctrl_jnt_01_offset_grp"
                 "trunk_var_fk_01_ctrl_jnt"
                 {| h_nodes := ["trunk_var_fk_01_ctrl_jnt"%string];
                    h_parent := fun _ => Some "root"%string |})).
Proof.
  apply (create_offset_group_between module_config
           "01_ctrl_jnt_01_offset_grp" "trunk_var_fk_01_ctrl_jnt"
           {| h_nodes := ["trunk_var_fk_01_ctrl_jnt"%string];
              h_parent := fun _ => Some "root"%string |}).
  intros H. vm_compute in H. discriminate.
Defined.

Lemma create_offset_groups_nest_witness :
  fst (create_offset_groups module_config ["a"; "b"]%string "jnt"
         {| h_nodes := ["jnt"%string]; h_parent := fun _ => None |})
  = ["trunk_var_fk_a"; "trunk_var_fk_b"]%string.
Proof.
  apply (create_offset_groups_nest module_config ["a"; "b"]%string "jnt"
           {| h_nodes := ["jnt"%string]; h_parent := fun _ => None |}).
  - repeat constructor; vm_compute; intuition discriminate.
  - vm_compute. intuition discriminate.
Defined.

Lemma joint_hierarchy_chain_witness :
  exists h',
    joint_hierarchy module_config 2 0 "joint1"
      {| h_nodes := ["joint1"%string]; h_parent := fun _ => None |}
    = Value h' /\
    h_parent h' "trunk_var_fk_01_ctrl_jnt"
    = Some "trunk_var_fk_01_ctrl_jnt_02_offset_grp"%string /\
    h_parent h' "trunk_var_fk_01_ctrl_jnt_02_offset_grp"
    = Some "trunk_var_fk_01_ctrl_jnt_01_offset_grp"%string /\
    h_parent h' "trunk_var_fk_01_ctrl_jnt_01_offset_grp"
    = Some "trunk_var_fk_01_ctrl_jnt_main_offset_grp"%string /\
    h_parent h' "trunk_var_fk_01_ctrl_jnt_main_offset_grp" = None.
Proof.
  destruct (joint_hierarchy_chain 2 0 "joint1"
              {| h_nodes := ["joint1"%string]; h_parent := fun _ => None |})
    as (h' & Hrun & HJ & HG & HG1 & HM & _).
  - lia.
  - intros n Hin [Hn|[]]. subst n. vm_compute in Hin.
    repeat (destruct Hin as [Hin|Hin]; [discriminate|]). exact Hin.
  - exists h'. split; [exact Hrun|]. split; [exact HJ|].
    split; [apply (HG 1%Z); lia|]. split; [exact HG1 | exact HM].
Defined.
